(** * risconvert: the container reader and the LZRW window decoder

    A shallow embedding of [src/main.cpp].  Streams are records threaded
    through the calls that receive them by reference; the files of the host
    and its console are the state of a small monad; C++ exceptions and
    out-of-bounds accesses are outcomes of a computation.  Loops whose
    termination depends on the stream's behaviour take fuel. *)

From Stdlib Require Import ZArith List Lia.
From Stdlib Require Import Strings.String Strings.Ascii Strings.Byte.
From Stdlib Require Import DecimalString DecimalNat.
From stdpp Require Import base option list strings gmap.

Set Default Proof Using "Type".

(** ** Bytes and fixed-width integers *)

Abbreviation byte := Byte.byte.

#[global] Instance byte_eq_decision : EqDecision byte := Byte.byte_eq_dec.

(** The value of a byte as an unsigned 8-bit integer. *)
Definition u8 (b : byte) : Z := Z.of_N (Byte.to_N b).

(** [read<T>] copies [sizeof(T)] bytes of the stream over a [T]; on the
    little-endian host the first byte is the least significant one. *)
Fixpoint le_decode (bs : list byte) : Z :=
  match bs with
  | [] => 0
  | b :: bs' => u8 b + 256 * le_decode bs'
  end%Z.

(** ** Outcomes of a call *)

Inductive exception : Type :=
| end_of_stream                       (* struct end_of_stream *)
| system_error                        (* std::system_error(errno, ...) *)
| runtime_error (what : string).      (* std::runtime_error, from error() *)

(** A call returns, throws, or has no defined behaviour (an access outside
    an array's bounds). *)
Inductive outcome (A : Type) : Type :=
| Return (a : A)
| Throw (e : exception)
| Undefined.
Arguments Return {A} a.
Arguments Throw {A} e.
Arguments Undefined {A}.

(** A computation over a state [St]; [None] means the fuel ran out. *)
Definition M (St A : Type) : Type := St -> option (outcome A * St).

Definition ret {St A} (a : A) : M St A := fun s => Some (Return a, s).
Definition throw {St A} (e : exception) : M St A := fun s => Some (Throw e, s).
Definition undefined {St A} : M St A := fun s => Some (Undefined, s).
Definition out_of_fuel {St A} : M St A := fun _ => None.
Definition get {St} : M St St := fun s => Some (Return s, s).
Definition put {St} (s : St) : M St unit := fun _ => Some (Return tt, s).

Definition bind {St A B} (m : M St A) (k : A -> M St B) : M St B :=
  fun s =>
    match m s with
    | None => None
    | Some (Return a, s') => k a s'
    | Some (Throw e, s') => Some (Throw e, s')
    | Some (Undefined, s') => Some (Undefined, s')
    end.

(** Run a computation on an object held by the caller (a stream passed by
    reference): the object's final state comes back with the result.  When
    the callee throws, the exception unwinds through the caller. *)
Definition call {St I A} (obj : I) (m : M I A) : M St (A * I) :=
  fun h =>
    match m obj with
    | None => None
    | Some (Return a, obj') => Some (Return (a, obj'), h)
    | Some (Throw e, _) => Some (Throw e, h)
    | Some (Undefined, _) => Some (Undefined, h)
    end.

Declare Scope io_scope.
Delimit Scope io_scope with io.
Notation "'let*' x ':=' m 'in' k" := (bind m (fun x => k))
  (at level 10, x pattern, m at level 100, k at level 200) : io_scope.
Open Scope io_scope.

(** ** Buffers *)

(** [memcpy(buffer + at, bs, |bs|)]: outside the buffer it has no defined
    behaviour. *)
Definition store_bytes (buffer : list byte) (at_ : nat) (bs : list byte)
  : option (list byte) :=
  if decide (at_ + length bs <= length buffer)
  then Some (take at_ buffer ++ bs ++ drop (at_ + length bs) buffer)
  else None.

(** [buffer[at]..buffer[at + n - 1]] *)
Definition load_bytes (buffer : list byte) (at_ n : nat) : option (list byte) :=
  if decide (at_ + n <= length buffer)
  then Some (take n (drop at_ buffer))
  else None.

(** ** struct istream *)

(** [try_read(buffer + at, amount)], the virtual method, over the stream
    and the storage the caller's pointer leads to; it returns the number of
    bytes it stored. *)
Class istream (I : Type) : Type :=
  try_read : nat -> nat -> nat -> M (I * list byte) nat.

(** [istream::read(buffer, amount)], lines 28-39 of the source.  No
    [try_read] of the program returns more than [remaining], so the
    subtraction does not wrap. *)
Fixpoint read_loop {I} `{istream I} (fuel at_ amount remaining : nat)
  : M (I * list byte) unit :=
  match remaining with
  | 0 => ret tt
  | _ =>
    match fuel with
    | 0 => out_of_fuel
    | S fuel' =>
      let offset := amount - remaining in
      let* result := try_read fuel' (at_ + offset) remaining in
      if decide (0 < result)
      then read_loop fuel' at_ amount (remaining - result)
      else throw end_of_stream
    end
  end.

Definition istream_read {I} `{istream I} (fuel at_ amount : nat)
  : M (I * list byte) unit :=
  read_loop fuel at_ amount amount.

(** A call that fills storage of the caller's own: the storage comes back
    with the result.  When the call throws, the caller lets the exception
    through and its storage is gone. *)
Definition filling {I A} (storage : list byte) (m : M (I * list byte) A)
  : M I (A * list byte) :=
  fun s =>
    match m (s, storage) with
    | None => None
    | Some (Return a, (s', storage')) => Some (Return (a, storage'), s')
    | Some (Throw e, (s', _)) => Some (Throw e, s')
    | Some (Undefined, (s', _)) => Some (Undefined, s')
    end.

(** ** struct ifstream_impl *)

(** The open file behind [m_fd]: its bytes and the descriptor's offset.
    The file is a list of bytes: [::read] and [::lseek] do not fail. *)
Record ifstream_impl : Type := {
  fd_bytes : list byte;
  fd_offset : nat
}.

(** [ifstream_impl::try_read], lines 102-113: [::read] stores the bytes the
    file still holds from the offset on, at most [amount] of them. *)
Definition ifstream_try_read (fuel at_ amount : nat)
  : M (ifstream_impl * list byte) nat :=
  fun '(s, buffer) =>
    if decide (0 < amount) then
      let bs := take amount (drop (fd_offset s) (fd_bytes s)) in
      match store_bytes buffer at_ bs with
      | Some buffer' =>
          Some (Return (length bs),
                ({| fd_bytes := fd_bytes s;
                    fd_offset := fd_offset s + length bs |}, buffer'))
      | None => Some (Undefined, (s, buffer))
      end
    else Some (Return 0, (s, buffer)).

#[export] Instance ifstream_istream : istream ifstream_impl := ifstream_try_read.

(** [ifstream_impl::seek], lines 115-121. *)
Definition seek (offset : nat) : M ifstream_impl unit :=
  fun s => Some (Return tt, {| fd_bytes := fd_bytes s; fd_offset := offset |}).

(** ** struct ilzrwstream_impl *)

(** [sizeof(m_window)] *)
Definition window_size : Z := 4096.

Record ilzrwstream_impl (I : Type) : Type := {
  m_stream : I;                 (* istream & m_stream, the borrowed source *)
  m_window : list byte;         (* uint8_t m_window[4096] *)
  m_window_index : Z;           (* uint16_t *)
  m_control_bits : Z;           (* uint16_t *)
  m_control_remaining : Z       (* uint8_t *)
}.
Arguments m_stream {I} _.
Arguments m_window {I} _.
Arguments m_window_index {I} _.
Arguments m_control_bits {I} _.
Arguments m_control_remaining {I} _.

(** The decoder [d] with [stream] for the state of its source. *)
Definition with_stream {I} (d : ilzrwstream_impl I) (stream : I)
  : ilzrwstream_impl I :=
  {| m_stream := stream;
     m_window := m_window d;
     m_window_index := m_window_index d;
     m_control_bits := m_control_bits d;
     m_control_remaining := m_control_remaining d |}.

(** A call on [m_stream]: the decoder sees the source's new state, also
    when the call throws. *)
Definition on_stream {I A} (m : M I A) : M (ilzrwstream_impl I) A :=
  fun d =>
    match m (m_stream d) with
    | None => None
    | Some (o, stream') => Some (o, with_stream d stream')
    end.

(** A step of the decoder that leaves the caller's buffer alone. *)
Definition on_decoder {D A} (m : M D A) : M (D * list byte) A :=
  fun '(d, buffer) =>
    match m d with
    | None => None
    | Some (o, d') => Some (o, (d', buffer))
    end.

(** [dst[0] = value], for [dst = buffer + at]. *)
Definition store_at {D} (at_ : nat) (value : byte) : M (D * list byte) unit :=
  fun '(d, buffer) =>
    match store_bytes buffer at_ [value] with
    | Some buffer' => Some (Return tt, (d, buffer'))
    | None => Some (Undefined, (d, buffer))
    end.

(** The bytes of a [size]-byte unsigned integer, least significant first. *)
Fixpoint le_encode (size : nat) (value : Z) : list byte :=
  match size with
  | 0 => []
  | S size' =>
      default x00 (Byte.of_N (Z.to_N (value mod 256)))
        :: le_encode size' (value / 256)
  end.

(** Line 216: [((tmp & 0xf000) >> 4) | (tmp & 0xff)] *)
Definition backref_ofs (tmp : Z) : Z :=
  Z.lor (Z.shiftr (Z.land tmp 0xf000) 4) (Z.land tmp 0xff).

(** Line 217: [((tmp & 0xf00) >> 8) + 1] *)
Definition backref_len (tmp : Z) : Z :=
  (Z.shiftr (Z.land tmp 0xf00) 8 + 1)%Z.

(** Line 219: [((m_window_index + (sizeof(m_window) - ofs)) % sizeof(m_window)) + i] *)
Definition backref_index (window_index ofs i : Z) : Z :=
  ((window_index + (window_size - ofs)) mod window_size + i)%Z.

(** ** derive_output_filename *)

(** [std::string::find_last_of(c)]; [None] is [npos]. *)
Fixpoint find_last_of (c : ascii) (s : string) : option nat :=
  match s with
  | EmptyString => None
  | String a s' =>
    match find_last_of c s' with
    | Some i => Some (S i)
    | None => if Ascii.eqb a c then Some 0 else None
    end
  end.

(** What [printf] sees of [s.c_str()]: the characters before the first NUL. *)
Fixpoint c_str (s : string) : string :=
  match s with
  | EmptyString => EmptyString
  | String a s' => if Ascii.eqb a Ascii.zero then EmptyString else String a (c_str s')
  end.

(** The first [n] characters of [s]. *)
Fixpoint string_take (n : nat) (s : string) : string :=
  match n, s with
  | S n', String a s' => String a (string_take n' s')
  | _, _ => EmptyString
  end.

(** [int(dot)]: the conversion of a [size_t] to a 32-bit [int]. *)
Definition int_of_size_t (n : nat) : Z :=
  let m := (Z.of_nat n mod 2 ^ 32)%Z in
  if (m <? 2 ^ 31)%Z then m else (m - 2 ^ 32)%Z.

(** The conversion [%.*s]: at most [precision] characters of the C string;
    a negative precision counts as none given. *)
Definition format_precision_s (precision : Z) (s : string) : string :=
  if (precision <? 0)%Z then c_str s
  else string_take (Z.to_nat precision) (c_str s).

(** The conversions [%zu] and [%u]: decimal digits. *)
Definition format_u (n : nat) : string :=
  NilZero.string_of_uint (Nat.to_uint n).

(** Lines 237-251, with the format ["%.*s.%zu.bmp"]. *)
Definition derive_output_filename (input_filename : string) (index : nat)
  : string :=
  match find_last_of "." input_filename with
  | Some dot =>
      format_precision_s (int_of_size_t dot) input_filename
        +:+ "." +:+ format_u index +:+ ".bmp"
  | None => EmptyString
  end.

(** ** The host: files by name, and the console *)

Record host : Type := {
  files : gmap string (list byte);
  console : list string
}.

(** [puts(s)] *)
Definition puts (s : string) : M host unit :=
  fun h => Some (Return tt, {| files := files h; console := console h ++ [s] |}).

(** [ifstream::open(filename)], lines 91-96 and 124-126. *)
Definition ifstream_open (filename : string) : M host ifstream_impl :=
  fun h =>
    match files h !! filename with
    | Some bs => Some (Return {| fd_bytes := bs; fd_offset := 0 |}, h)
    | None => Some (Throw system_error, h)
    end.

(** ** What the platform decides *)

Class platform : Type := {
  (** The byte that storage nobody initialised holds at each index. *)
  uninitialized : nat -> byte;
  (** Whether [::open(filename, O_RDWR | O_TRUNC | O_CREAT | O_CLOEXEC)]
      succeeds. *)
  creatable : string -> bool
}.

Section Program.
Context {P : platform}.

(** [read<T>()] for a [T] of [size] bytes: the temporary starts with
    whatever its storage held. *)
Definition read_value {I} `{istream I} (fuel size : nat) : M I (list byte) :=
  let* (_, tmp) := filling (map uninitialized (seq 0 size))
                     (istream_read fuel 0 size) in
  ret tmp.

(** [read<uint8_t>()] *)
Definition read_uint8 {I} `{istream I} (fuel : nat) : M I byte :=
  let* tmp := read_value fuel 1 in
  match tmp with
  | [value] => ret value
  | _ => undefined
  end.

(** [read<uint16_t>()] *)
Definition read_uint16 {I} `{istream I} (fuel : nat) : M I Z :=
  let* tmp := read_value fuel 2 in ret (le_decode tmp).

(** [read<uint32_t>()] *)
Definition read_uint32 {I} `{istream I} (fuel : nat) : M I Z :=
  let* tmp := read_value fuel 4 in ret (le_decode tmp).

(** The constructor, lines 199-204, as [ilzrwstream::wrap] calls it: the
    initialiser list names the stream, the index and the two control
    fields; [m_window] keeps what its storage held. *)
Definition wrap {I} (stream : I) : ilzrwstream_impl I :=
  {| m_stream := stream;
     m_window := map uninitialized (seq 0 (Z.to_nat window_size));
     m_window_index := 0;
     m_control_bits := 0;
     m_control_remaining := 0 |}.

(** Line 211, [m_stream.read(m_control_bits)]: the two bytes of the member
    are the storage the read fills, so the member holds what the read
    stored also when the read throws. *)
Definition read_control_bits {I} `{istream I} (fuel : nat)
  : M (ilzrwstream_impl I) unit :=
  fun d =>
    match istream_read fuel 0 2 (m_stream d, le_encode 2 (m_control_bits d)) with
    | None => None
    | Some (o, (stream', bytes)) =>
        Some (o, {| m_stream := stream';
                    m_window := m_window d;
                    m_window_index := m_window_index d;
                    m_control_bits := le_decode bytes;
                    m_control_remaining := m_control_remaining d |})
    end.

(** Lines 210-213: pull a control word when none of its bits is left. *)
Definition refill_control {I} `{istream I} (fuel : nat)
  : M (ilzrwstream_impl I) unit :=
  let* d := get in
  if (m_control_remaining d =? 0)%Z then
    let* _ := read_control_bits fuel in
    let* d := get in
    put {| m_stream := m_stream d;
           m_window := m_window d;
           m_window_index := m_window_index d;
           m_control_bits := m_control_bits d;
           m_control_remaining := 16 |}
  else ret tt.

(** Lines 218-221, the iterations [i], [i + 1], ..., [i + todo - 1] of the
    copy loop: each one stores [m_window[index]] at [*dst]. *)
Fixpoint backref_loop {I} (ofs i : Z) (todo : nat) (dst : nat)
  : M (ilzrwstream_impl I * list byte) unit :=
  match todo with
  | 0 => ret tt
  | S todo' =>
    let* d := on_decoder get in
    let index := backref_index (m_window_index d) ofs i in
    match m_window d !! Z.to_nat index with
    | None => undefined
    | Some value =>
        let* _ := store_at dst value in
        backref_loop ofs (i + 1) todo' dst
    end
  end.

(** Lines 225-226: [m_window[m_window_index] = value] and the index's step. *)
Definition window_push {I} (value : byte) : M (ilzrwstream_impl I) unit :=
  let* d := get in
  put {| m_stream := m_stream d;
         m_window := <[Z.to_nat (m_window_index d) := value]> (m_window d);
         m_window_index := ((m_window_index d + 1) mod window_size)%Z;
         m_control_bits := m_control_bits d;
         m_control_remaining := m_control_remaining d |}.

(** The body of the loop of [ilzrwstream_impl::try_read], lines 210-227:
    one token, stored at [*dst]. *)
Definition lzrw_token {I} `{istream I} (fuel : nat) (dst : nat)
  : M (ilzrwstream_impl I * list byte) unit :=
  let* _ := on_decoder (refill_control fuel) in
  let* d := on_decoder get in
  if negb (Z.land (m_control_bits d) 0x1 =? 0)%Z then
    let* tmp := on_decoder (on_stream (read_uint16 fuel)) in
    let ofs := backref_ofs tmp in
    let len := backref_len tmp in
    backref_loop ofs 0 (Z.to_nat len) dst
  else
    let* value := on_decoder (on_stream (read_uint8 fuel)) in
    let* _ := store_at dst value in
    on_decoder (window_push value).

(** [ilzrwstream_impl::try_read], lines 206-230.  No statement of the loop
    assigns [remaining]: the body runs again with the same [remaining] and
    the same [dst], and [return 0] is reached only when [amount] is 0. *)
Fixpoint lzrw_loop {I} `{istream I} (fuel at_ amount remaining : nat)
  : M (ilzrwstream_impl I * list byte) nat :=
  match remaining with
  | 0 => ret 0
  | _ =>
    match fuel with
    | 0 => out_of_fuel
    | S fuel' =>
      let offset := amount - remaining in
      let dst := at_ + offset in
      let* _ := lzrw_token fuel' dst in
      lzrw_loop fuel' at_ amount remaining
    end
  end.

Definition ilzrwstream_try_read {I} `{istream I} (fuel at_ amount : nat)
  : M (ilzrwstream_impl I * list byte) nat :=
  lzrw_loop fuel at_ amount amount.

#[global] Instance ilzrwstream_istream {I} `{istream I}
  : istream (ilzrwstream_impl I) := ilzrwstream_try_read.

(** [ofstream::create(filename)], lines 137-142 and 183-185: the file is
    created or truncated; the stream is known by the file's name. *)
Definition ofstream_create (filename : string) : M host string :=
  fun h =>
    if creatable filename
    then Some (Return filename,
               {| files := <[filename := []]> (files h); console := console h |})
    else Some (Throw system_error, h).

(** [ofstream_impl::try_write], lines 161-172: [::write] appends the bytes
    at the descriptor's offset, the end of what was written so far. *)
Definition ofstream_try_write (output : string) (buffer : list byte)
    (at_ amount : nat) : M host nat :=
  fun h =>
    if decide (0 < amount) then
      match load_bytes buffer at_ amount with
      | Some bs =>
          Some (Return amount,
                {| files := <[output := default [] (files h !! output) ++ bs]> (files h);
                   console := console h |})
      | None => Some (Undefined, h)
      end
    else Some (Return 0, h).

(** [ostream::write(buffer, amount)], lines 60-71. *)
Fixpoint write_loop (fuel : nat) (output : string) (buffer : list byte)
    (amount remaining : nat) : M host unit :=
  match remaining with
  | 0 => ret tt
  | _ =>
    match fuel with
    | 0 => out_of_fuel
    | S fuel' =>
      let offset := amount - remaining in
      let* result := ofstream_try_write output buffer offset remaining in
      if decide (0 < result)
      then write_loop fuel' output buffer amount (remaining - result)
      else throw end_of_stream
    end
  end.

Definition ostream_write (fuel : nat) (output : string) (buffer : list byte)
    (amount : nat) : M host unit :=
  write_loop fuel output buffer amount amount.

(** ** The archive reader *)

(** [sizeof(buffer)] in [export_bitmap] *)
Definition buffer_size : nat := 4096.

(** The loop of [export_bitmap], lines 275-280. *)
Fixpoint export_loop {I} `{istream I} (fuel : nat) (input : I)
    (output : string) (buffer : list byte) (remaining : nat) : M host I :=
  match remaining with
  | 0 => ret input
  | _ =>
    match fuel with
    | 0 => out_of_fuel
    | S fuel' =>
      let len := Nat.min remaining buffer_size in
      let* (_, (input', buffer')) := call (input, buffer) (istream_read fuel' 0 len) in
      let* _ := ostream_write fuel' output buffer' len in
      export_loop fuel' input' output buffer' (remaining - len)
    end
  end.

(** [export_bitmap], lines 268-281; the stream comes back as the copy
    left it. *)
Definition export_bitmap {I} `{istream I} (fuel : nat) (input : I)
    (filename : string) (amount : nat) : M host I :=
  let* output := ofstream_create filename in
  export_loop fuel input output (map uninitialized (seq 0 buffer_size)) amount.

(** [export_plain_bitmap], lines 283-291. *)
Definition export_plain_bitmap {I} `{istream I} (fuel : nat) (stream : I)
    (input_filename : string) (index : nat) : M host I :=
  let* (size, stream) := call stream (read_uint32 fuel) in
  let output_filename := derive_output_filename input_filename index in
  export_bitmap fuel stream output_filename (Z.to_nat size).

(** [export_compressed_bitmap], lines 293-304: a decoder is made for this
    entry alone, over the archive's stream. *)
Definition export_compressed_bitmap {I} `{istream I} (fuel : nat) (stream : I)
    (input_filename : string) (index : nat) : M host I :=
  let* (size1, stream) := call stream (read_uint32 fuel) in
  let* (size2, stream) := call stream (read_uint32 fuel) in
  let* (unknown, stream) := call stream (read_uint8 fuel) in
  let output_filename := derive_output_filename input_filename index in
  let compressed := wrap stream in
  let* compressed := export_bitmap fuel compressed output_filename (Z.to_nat size1) in
  ret (m_stream compressed).

(** [is_bitmap_list], lines 306-308. *)
Definition is_bitmap_list (magic : list byte) : bool :=
  bool_decide (magic = list_byte_of_string "LMDBML30").

(** The first loop of [extract], lines 319-321. *)
Fixpoint read_offsets (fuel : nat) (count : nat) : M ifstream_impl (list Z) :=
  match count with
  | 0 => ret []
  | S count' =>
    let* offset := read_uint32 fuel in
    let* offsets := read_offsets fuel count' in
    ret (offset :: offsets)
  end.

(** The body of the second loop of [extract], lines 324-332: entry [i]. *)
Definition extract_entry (fuel : nat) (stream : ifstream_impl)
    (input_filename : string) (i : nat) (offset : Z) : M host ifstream_impl :=
  let* (_, stream) := call stream (seek (Z.to_nat offset)) in
  let* (type, stream) := call stream (read_uint8 fuel) in
  if (u8 type =? 8)%Z then
    export_plain_bitmap fuel stream input_filename i
  else if (u8 type =? 9)%Z then
    export_compressed_bitmap fuel stream input_filename i
  else
    throw (runtime_error ("unknown type: " +:+ format_u (Z.to_nat (u8 type)))).

(** The second loop of [extract], lines 323-333, from entry [i] on. *)
Fixpoint extract_entries (fuel : nat) (stream : ifstream_impl)
    (input_filename : string) (i : nat) (offsets : list Z) : M host unit :=
  match offsets with
  | [] => ret tt
  | offset :: offsets' =>
    let* stream := extract_entry fuel stream input_filename i offset in
    extract_entries fuel stream input_filename (S i) offsets'
  end.

(** [extract], lines 310-340.  The vector of line 318 is the list that
    [read_offsets] builds; making it is taken to succeed. *)
Definition extract (fuel : nat) (input_filename : string) : M host unit :=
  let* _ := puts input_filename in
  let* stream := ifstream_open input_filename in
  let* (version, stream) := call stream (read_uint8 fuel) in
  if (u8 version =? 8)%Z then
    let* (magic, stream) := call stream (read_value fuel 8) in
    if is_bitmap_list magic then
      let* (count, stream) := call stream (read_uint32 fuel) in
      let* (offsets, stream) := call stream (read_offsets fuel (Z.to_nat count)) in
      extract_entries fuel stream input_filename 0 offsets
    else
      puts "Does not contain images"
  else
    throw (runtime_error ("unknown version: " +:+ format_u (Z.to_nat (u8 version)))).

End Program.

(** * Properties *)

(** ** The back-reference descriptor *)

Section Descriptor.
Local Open Scope Z_scope.

(** Bits [lo .. lo + width - 1] of [x], as a number. *)
Definition bit_field (x lo width : Z) : Z :=
  Z.land (Z.shiftr x lo) (Z.ones width).

Lemma testbit_bit_field x lo width i :
  (0 <= lo)%Z -> (0 <= width)%Z -> (0 <= i)%Z ->
  Z.testbit (bit_field x lo width) i = (i <? width)%Z && Z.testbit x (i + lo).
Proof.
  intros Hlo Hw Hi. unfold bit_field.
  rewrite Z.land_spec, Z.shiftr_spec, Z.testbit_ones_nonneg by lia.
  apply andb_comm.
Qed.

Lemma testbit_backref_ofs tmp i :
  (0 <= i)%Z ->
  Z.testbit (backref_ofs tmp) i =
    if (i <? 8)%Z then Z.testbit tmp i
    else if (i <? 12)%Z then Z.testbit tmp (i + 4)
    else false.
Proof.
  intros Hi. unfold backref_ofs.
  change 0xf000%Z with (Z.shiftl (Z.ones 4) 12).
  change 0xff%Z with (Z.ones 8).
  rewrite Z.lor_spec, Z.shiftr_spec, !Z.land_spec, Z.shiftl_spec by lia.
  rewrite (Z.testbit_ones_nonneg 8) by lia.
  destruct (Z.ltb_spec i 8) as [H8|H8].
  - rewrite andb_true_r.
    replace (Z.testbit (Z.ones 4) (i + 4 - 12)) with false.
    + now rewrite andb_false_r.
    + symmetry. apply Z.testbit_neg_r. lia.
  - rewrite andb_false_r, orb_false_r.
    rewrite Z.testbit_ones_nonneg by lia.
    destruct (Z.ltb_spec i 12) as [H12|H12].
    + replace (i + 4 - 12 <? 4)%Z with true by (symmetry; apply Z.ltb_lt; lia).
      apply andb_true_r.
    + replace (i + 4 - 12 <? 4)%Z with false by (symmetry; apply Z.ltb_ge; lia).
      apply andb_false_r.
Qed.

Lemma backref_ofs_range tmp : (0 <= backref_ofs tmp < 4096)%Z.
Proof.
  assert (Hnn : (0 <= backref_ofs tmp)%Z).
  { unfold backref_ofs. apply Z.lor_nonneg. split.
    - apply Z.shiftr_nonneg, Z.land_nonneg. right. lia.
    - apply Z.land_nonneg. right. lia. }
  split; [exact Hnn|].
  destruct (Z.eq_dec (backref_ofs tmp) 0) as [->|Hne]; [lia|].
  change 4096%Z with (2 ^ 12)%Z.
  apply Z.log2_lt_pow2; [lia|].
  destruct (Z.lt_ge_cases (Z.log2 (backref_ofs tmp)) 12) as [|Hge]; [assumption|].
  exfalso.
  assert (Hb : Z.testbit (backref_ofs tmp) (Z.log2 (backref_ofs tmp)) = true)
    by (apply Z.bit_log2; lia).
  rewrite testbit_backref_ofs in Hb by lia.
  destruct (Z.ltb_spec (Z.log2 (backref_ofs tmp)) 8); [lia|].
  destruct (Z.ltb_spec (Z.log2 (backref_ofs tmp)) 12); [lia|discriminate].
Qed.

Lemma backref_len_field tmp : backref_len tmp = (bit_field tmp 8 4 + 1)%Z.
Proof.
  unfold backref_len, bit_field. f_equal.
  apply Z.bits_inj'. intros i Hi.
  change 0xf00%Z with (Z.shiftl (Z.ones 4) 8).
  rewrite Z.shiftr_spec, !Z.land_spec, Z.shiftl_spec, Z.shiftr_spec by lia.
  now replace (i + 8 - 8)%Z with i by lia.
Qed.

Lemma bit_field_range x lo width :
  (0 <= width)%Z -> (0 <= bit_field x lo width < 2 ^ width)%Z.
Proof.
  intros Hw. unfold bit_field. rewrite Z.land_ones by lia.
  apply Z.mod_pos_bound. apply Z.pow_pos_nonneg; lia.
Qed.

Lemma backref_len_range tmp : (1 <= backref_len tmp <= 16)%Z.
Proof.
  rewrite backref_len_field.
  pose proof (bit_field_range tmp 8 4 ltac:(lia)) as H.
  change (2 ^ 4)%Z with 16%Z in H. lia.
Qed.

(** C6.  The distance of a back-reference is bits 12-15 of its descriptor,
    moved to bit positions 8-11, OR-ed with bits 0-7; its length is bits
    8-11 plus 1, so that a stored nibble of 0 stands for length 1. *)
Theorem backref_descriptor_fields (tmp : Z) :
  backref_ofs tmp =
    Z.lor (Z.shiftl (bit_field tmp 12 4) 8) (bit_field tmp 0 8) /\
  backref_len tmp = (bit_field tmp 8 4 + 1)%Z /\
  (bit_field tmp 8 4 = 0%Z -> backref_len tmp = 1%Z).
Proof.
  split; [|split].
  - apply Z.bits_inj'. intros i Hi.
    rewrite testbit_backref_ofs by assumption.
    rewrite Z.lor_spec, Z.shiftl_spec by assumption.
    rewrite (testbit_bit_field tmp 0 8) by lia.
    rewrite Z.add_0_r.
    destruct (Z.ltb_spec i 8) as [H8|H8].
    + rewrite (Z.testbit_neg_r _ (i - 8)) by lia. reflexivity.
    + rewrite testbit_bit_field by lia.
      replace (i - 8 + 12)%Z with (i + 4)%Z by lia.
      rewrite orb_false_r.
      destruct (Z.ltb_spec i 12); destruct (Z.ltb_spec (i - 8) 4); try lia; reflexivity.
  - apply backref_len_field.
  - intros H0. rewrite backref_len_field, H0. reflexivity.
Qed.

End Descriptor.

(** ** The name of an entry's file *)

Section OutputName.
Local Open Scope string_scope.

(** Whether the character [c] occurs in [s]. *)
Fixpoint occurs (c : ascii) (s : string) : bool :=
  match s with
  | EmptyString => false
  | String a s' => Ascii.eqb a c || occurs c s'
  end.

Lemma find_last_of_absent c s : occurs c s = false -> find_last_of c s = None.
Proof.
  induction s as [|a s IH]; simpl; [reflexivity|].
  intros [Ha Hs]%orb_false_elim. now rewrite (IH Hs), Ha.
Qed.

Lemma find_last_of_last c stem ext :
  occurs c ext = false ->
  find_last_of c (stem +:+ String c ext) = Some (String.length stem).
Proof.
  intros Hext. induction stem as [|a stem IH]; simpl.
  - now rewrite (find_last_of_absent _ _ Hext), Ascii.eqb_refl.
  - now rewrite IH.
Qed.

Lemma c_str_prefix stem rest :
  occurs Ascii.zero stem = false ->
  string_take (String.length stem) (c_str (stem +:+ rest)) = stem.
Proof.
  induction stem as [|a stem IH]; simpl.
  - intros _. now destruct (c_str rest).
  - intros [Ha Hs]%orb_false_elim. rewrite Ha. simpl. now rewrite (IH Hs).
Qed.

Lemma int_of_size_t_small n :
  (Z.of_nat n < 2 ^ 31)%Z -> int_of_size_t n = Z.of_nat n.
Proof.
  intros Hn. unfold int_of_size_t.
  rewrite Z.mod_small by lia.
  destruct (Z.ltb_spec (Z.of_nat n) (2 ^ 31)); [reflexivity|lia].
Qed.

(** C10.  The name derived for entry [N] is the archive's name cut at its
    last ['.'], followed by [".N.bmp"]; an archive name without a ['.']
    gives the empty name.  (A file name holds no NUL, and its length fits
    the [int] that carries the precision.) *)
Theorem derive_output_filename_spec (stem ext name : string) (N : nat) :
  (occurs "." ext = false ->
   occurs Ascii.zero stem = false ->
   (Z.of_nat (String.length stem) < 2 ^ 31)%Z ->
   derive_output_filename (stem +:+ "." +:+ ext) N
     = stem +:+ "." +:+ format_u N +:+ ".bmp") /\
  (occurs "." name = false -> derive_output_filename name N = "").
Proof.
  split.
  - intros Hext Hnul Hlen. unfold derive_output_filename.
    change ("." +:+ ext) with (String "." ext).
    rewrite (find_last_of_last _ _ _ Hext).
    unfold format_precision_s.
    rewrite (int_of_size_t_small _ Hlen).
    destruct (Z.ltb_spec (Z.of_nat (String.length stem)) 0) as [Hneg|_]; [lia|].
    rewrite Nat2Z.id. now rewrite (c_str_prefix _ _ Hnul).
  - intros Hname. unfold derive_output_filename.
    now rewrite (find_last_of_absent _ _ Hname).
Qed.

Lemma derive_output_filename_spec_witness :
  derive_output_filename "tiles.v2.ris" 7 = "tiles.v2.7.bmp" /\
  derive_output_filename "tiles" 7 = "".
Proof.
  destruct (derive_output_filename_spec "tiles.v2" "ris" "tiles" 7) as [Hdot Hnone].
  split.
  - apply Hdot; [reflexivity|reflexivity|vm_compute; reflexivity].
  - apply Hnone. reflexivity.
Defined.

End OutputName.

(** ** The archive reader over a file *)

Section Reader.
Context {P : platform}.

(** *** Sequencing *)

Lemma bind_return {St A B} (m : M St A) (k : A -> M St B) s a s' :
  m s = Some (Return a, s') -> bind m k s = k a s'.
Proof. unfold bind. now intros ->. Qed.

Lemma bind_throw {St A B} (m : M St A) (k : A -> M St B) s e s' :
  m s = Some (Throw e, s') -> bind m k s = Some (Throw e, s').
Proof. unfold bind. now intros ->. Qed.

Lemma bind_undefined {St A B} (m : M St A) (k : A -> M St B) s s' :
  m s = Some (Undefined, s') -> bind m k s = Some (Undefined, s').
Proof. unfold bind. now intros ->. Qed.

Lemma call_return {St I A} (m : M I A) (obj obj' : I) (a : A) (h : St) :
  m obj = Some (Return a, obj') -> call obj m h = Some (Return (a, obj'), h).
Proof. unfold call. now intros ->. Qed.

Lemma filling_return {I A} (m : M (I * list byte) A) storage storage' s s' a :
  m (s, storage) = Some (Return a, (s', storage')) ->
  filling storage m s = Some (Return (a, storage'), s').
Proof. unfold filling. now intros ->. Qed.

Lemma filling_throw {I A} (m : M (I * list byte) A) storage storage' s s' e :
  m (s, storage) = Some (Throw e, (s', storage')) ->
  filling storage m s = Some (Throw e, s').
Proof. unfold filling. now intros ->. Qed.

(** *** Reading a file *)

Lemma read_loop_done {I} `{istream I} fuel at_ amount (st : I * list byte) :
  read_loop fuel at_ amount 0 st = Some (Return tt, st).
Proof. destruct fuel; reflexivity. Qed.

(** The stream after [n] more bytes were consumed. *)
Definition advance (s : ifstream_impl) (n : nat) : ifstream_impl :=
  {| fd_bytes := fd_bytes s; fd_offset := fd_offset s + n |}.

(** The bytes [::read] would deliver next. *)
Definition upcoming (s : ifstream_impl) (n : nat) : list byte :=
  take n (drop (fd_offset s) (fd_bytes s)).

Lemma length_upcoming s n :
  length (upcoming s n) = Nat.min n (length (fd_bytes s) - fd_offset s).
Proof. unfold upcoming. now rewrite length_take, length_drop. Qed.

Lemma advance_0 s : advance s 0 = s.
Proof. destruct s. unfold advance. simpl. f_equal. lia. Qed.

(** A read that the file can serve stores the next bytes of the file. *)
Lemma istream_read_ifstream fuel buffer at_ amount s :
  fd_offset s + amount <= length (fd_bytes s) ->
  at_ + amount <= length buffer ->
  istream_read (S fuel) at_ amount (s, buffer) =
    Some (Return tt,
          (advance s amount,
           take at_ buffer ++ upcoming s amount ++ drop (at_ + amount) buffer)).
Proof.
  intros Hs Hb. unfold istream_read.
  destruct amount as [|n].
  - simpl. rewrite advance_0. unfold ret, upcoming. simpl.
    rewrite Nat.add_0_r. now rewrite take_drop.
  - assert (Hlen : length (upcoming s (S n)) = S n)
      by (rewrite length_upcoming; lia).
    cbn [read_loop]. unfold bind at 1.
    unfold try_read, ifstream_istream, ifstream_try_read.
    destruct (decide (0 < S n)) as [_|]; [|lia].
    fold (upcoming s (S n)). unfold store_bytes.
    rewrite Hlen, Nat.sub_diag, Nat.add_0_r.
    destruct (decide (at_ + S n <= length buffer)) as [_|]; [|contradiction].
    destruct (decide (0 < S n)) as [_|]; [|lia].
    rewrite Nat.sub_diag, read_loop_done. reflexivity.
Qed.

Lemma read_value_ifstream fuel size s :
  fd_offset s + size <= length (fd_bytes s) ->
  read_value (S fuel) size s = Some (Return (upcoming s size), advance s size).
Proof.
  intros Hs. unfold read_value.
  erewrite bind_return.
  2:{ apply filling_return. apply istream_read_ifstream; [assumption|].
      now rewrite length_map, length_seq. }
  cbv beta iota. rewrite drop_ge by (rewrite length_map, length_seq; lia).
  simpl. now rewrite app_nil_r.
Qed.

(** A read past the end of the file throws, from any offset. *)
Lemma istream_read_ifstream_eos fuel buffer at_ amount s :
  0 < amount ->
  length (fd_bytes s) < fd_offset s + amount ->
  at_ + amount <= length buffer ->
  exists s' buffer',
    istream_read (S (S fuel)) at_ amount (s, buffer)
      = Some (Throw end_of_stream, (s', buffer'))
    /\ fd_bytes s' = fd_bytes s.
Proof.
  intros Hpos Hs Hb. unfold istream_read.
  destruct amount as [|n]; [lia|]. clear Hpos.
  cbn [read_loop]. unfold bind at 1.
  unfold try_read at 1, ifstream_istream, ifstream_try_read.
  destruct (decide (0 < S n)) as [_|]; [|lia].
  fold (upcoming s (S n)).
  pose proof (length_upcoming s (S n)) as Hlen.
  unfold store_bytes.
  destruct (decide (at_ + (S n - S n) + length (upcoming s (S n)) <= length buffer))
    as [_|Hno]; [|lia].
  destruct (decide (0 < length (upcoming s (S n)))) as [Hpos|Hzero].
  - remember (length (upcoming s (S n))) as k eqn:Hk.
    destruct (S n - k) as [|r] eqn:Hr; [lia|].
    cbn [read_loop]. unfold bind at 1.
    unfold try_read at 1, ifstream_istream, ifstream_try_read. cbn [fd_bytes fd_offset].
    destruct (decide (0 < S r)) as [_|]; [|lia].
    rewrite (drop_ge (fd_bytes s)) by lia. rewrite take_nil.
    unfold store_bytes. cbn [length].
    rewrite !length_app, length_take, length_drop, <- Hk.
    destruct (decide (_ <= _)) as [_|Hno]; [|lia].
    destruct (decide (0 < 0)) as [|_]; [lia|].
    do 2 eexists. split; reflexivity.
  - do 2 eexists. split; reflexivity.
Qed.

Lemma read_value_ifstream_eos fuel size s :
  0 < size ->
  length (fd_bytes s) < fd_offset s + size ->
  exists s',
    read_value (S (S fuel)) size s = Some (Throw end_of_stream, s')
    /\ fd_bytes s' = fd_bytes s.
Proof.
  intros Hpos Hs. unfold read_value.
  destruct (istream_read_ifstream_eos fuel (map uninitialized (seq 0 size)) 0 size s
              Hpos Hs) as (s' & buffer' & Hr & Hbytes).
  { now rewrite length_map, length_seq. }
  exists s'. split; [|assumption].
  erewrite bind_throw; [reflexivity|].
  eapply filling_throw. exact Hr.
Qed.

Lemma read_uint8_ifstream fuel s value :
  fd_bytes s !! fd_offset s = Some value ->
  read_uint8 (S fuel) s = Some (Return value, advance s 1).
Proof.
  intros Hv. unfold read_uint8.
  assert (Hlt : fd_offset s < length (fd_bytes s)) by (eapply lookup_lt_Some; eassumption).
  rewrite (bind_return _ _ _ _ _ (read_value_ifstream fuel 1 s ltac:(lia))).
  unfold upcoming.
  rewrite (take_S_r _ 0 value) by (now rewrite lookup_drop, Nat.add_0_r).
  reflexivity.
Qed.

Lemma read_uint32_ifstream fuel s :
  fd_offset s + 4 <= length (fd_bytes s) ->
  read_uint32 (S fuel) s = Some (Return (le_decode (upcoming s 4)), advance s 4).
Proof.
  intros Hs. unfold read_uint32.
  now rewrite (bind_return _ _ _ _ _ (read_value_ifstream fuel 4 s Hs)).
Qed.

(** C8.  When the version byte is 8 and the eight bytes after it are not
    the bitmap-list tag, [extract] returns normally: it creates no file, it
    prints the archive's name and that the archive holds no images, and the
    outcome is the same whatever follows the tag, or when nothing does. *)
Theorem extract_without_bitmap_list (fuel : nat) (input_filename : string)
    (h : host) (magic rest : list byte) :
  0 < fuel ->
  files h !! input_filename = Some (x08 :: magic ++ rest) ->
  length magic = 8 ->
  magic <> list_byte_of_string "LMDBML30" ->
  extract fuel input_filename h =
    Some (Return tt,
          {| files := files h;
             console := console h ++ [input_filename; "Does not contain images"%string] |}).
Proof.
  intros Hfuel Hfile Hlen Hmagic.
  destruct fuel as [|fuel]; [lia|].
  unfold extract.
  erewrite bind_return by reflexivity.
  erewrite bind_return by (unfold ifstream_open; cbn [files]; now rewrite Hfile).
  erewrite bind_return
    by (apply call_return; now apply read_uint8_ifstream).
  cbv beta iota.
  change (u8 x08 =? 8)%Z with true. cbv iota.
  erewrite bind_return.
  2:{ apply call_return. apply read_value_ifstream.
      cbn [advance fd_bytes fd_offset length]. rewrite length_app. lia. }
  cbv beta iota.
  replace (upcoming _ 8) with magic.
  2:{ unfold upcoming. cbn [advance fd_bytes fd_offset drop Nat.add].
      rewrite drop_0. now rewrite take_app_length'. }
  unfold is_bitmap_list. rewrite bool_decide_eq_false_2 by assumption.
  unfold puts. cbn [files console]. now rewrite <- app_assoc.
Qed.

(** An archive with the bitmap-list tag and a directory of no entries:
    [extract] returns normally and creates no file. *)
Theorem extract_empty_directory (fuel : nat) (input_filename : string)
    (h : host) (rest : list byte) :
  0 < fuel ->
  files h !! input_filename
    = Some (x08 :: list_byte_of_string "LMDBML30" ++ [x00; x00; x00; x00] ++ rest) ->
  extract fuel input_filename h =
    Some (Return tt,
          {| files := files h; console := console h ++ [input_filename] |}).
Proof.
  intros Hfuel Hfile.
  destruct fuel as [|fuel]; [lia|].
  unfold extract.
  erewrite bind_return by reflexivity.
  erewrite bind_return by (unfold ifstream_open; cbn [files]; now rewrite Hfile).
  erewrite bind_return
    by (apply call_return; now apply read_uint8_ifstream).
  cbv beta iota.
  change (u8 x08 =? 8)%Z with true. cbv iota.
  erewrite bind_return.
  2:{ apply call_return. apply read_value_ifstream.
      cbn [advance fd_bytes fd_offset length]. rewrite length_app.
      change (length (list_byte_of_string "LMDBML30")) with 8. lia. }
  cbv beta iota.
  replace (upcoming _ 8) with (list_byte_of_string "LMDBML30") by reflexivity.
  change (is_bitmap_list (list_byte_of_string "LMDBML30")) with true. cbv iota.
  erewrite bind_return.
  2:{ apply call_return. apply read_uint32_ifstream.
      cbn [advance fd_bytes fd_offset length]. rewrite length_app.
      change (length (list_byte_of_string "LMDBML30")) with 8.
      cbn [app length]. lia. }
  cbv beta iota.
  replace (upcoming _ 4) with [x00; x00; x00; x00] by reflexivity.
  change (Z.to_nat (le_decode [x00; x00; x00; x00])) with 0.
  cbn [read_offsets].
  erewrite bind_return by (apply call_return; reflexivity).
  reflexivity.
Qed.

(** ** Plain entries *)

Lemma write_loop_done fuel output buffer amount h :
  write_loop fuel output buffer amount 0 h = Some (Return tt, h).
Proof. destruct fuel; reflexivity. Qed.

(** One [write] of the first [amount] bytes of the buffer appends them to
    the file. *)
Lemma ostream_write_appends fuel output buffer amount h written :
  amount <= length buffer ->
  files h !! output = Some written ->
  ostream_write (S fuel) output buffer amount h =
    Some (Return tt,
          {| files := <[output := written ++ take amount buffer]> (files h);
             console := console h |}).
Proof.
  intros Hb Hw. unfold ostream_write.
  destruct amount as [|n].
  - simpl. unfold ret. rewrite take_0, app_nil_r.
    rewrite insert_id by assumption. now destruct h.
  - cbn [write_loop]. unfold bind, ofstream_try_write.
    destruct (decide (0 < S n)) as [_|]; [|lia].
    unfold load_bytes. rewrite Nat.sub_diag.
    destruct (decide (0 + S n <= length buffer)) as [_|]; [|lia].
    destruct (decide (0 < S n)) as [_|]; [|lia].
    rewrite Nat.sub_diag, write_loop_done, Hw, drop_0. reflexivity.
Qed.

Lemma upcoming_add s n m :
  upcoming s (n + m) = upcoming s n ++ upcoming (advance s n) m.
Proof.
  unfold upcoming, advance. cbn [fd_bytes fd_offset].
  now rewrite <- take_take_drop, drop_drop.
Qed.

Lemma advance_advance s n m : advance (advance s n) m = advance s (n + m).
Proof. unfold advance. cbn [fd_bytes fd_offset]. f_equal. lia. Qed.

(** The copy loop moves the next [remaining] bytes of a file to the end of
    the output file. *)
Lemma export_loop_ifstream fuel : forall s output buffer remaining h written,
  fd_offset s + remaining <= length (fd_bytes s) ->
  length buffer = buffer_size ->
  files h !! output = Some written ->
  remaining < fuel ->
  export_loop fuel s output buffer remaining h =
    Some (Return (advance s remaining),
          {| files := <[output := written ++ upcoming s remaining]> (files h);
             console := console h |}).
Proof.
  induction fuel as [|fuel IH]; intros s output buffer remaining h written Hs Hb Hw Hf;
    [lia|].
  destruct remaining as [|r].
  - simpl. unfold ret, upcoming. rewrite take_0, app_nil_r, advance_0.
    rewrite insert_id by assumption. now destruct h.
  - assert (Hfuel : exists fuel', fuel = S fuel') by (destruct fuel; [lia|eauto]).
    destruct Hfuel as [fuel' ->].
    assert (Hlen : Nat.min (S r) buffer_size <= S r
                   /\ Nat.min (S r) buffer_size <= buffer_size
                   /\ 0 < Nat.min (S r) buffer_size)
      by (unfold buffer_size; lia).
    remember (S r) as remaining eqn:Hrem.
    remember (Nat.min remaining buffer_size) as len eqn:Hlendef.
    replace (export_loop (S (S fuel')) s output buffer remaining h) with
      ((let* (_, (input', buffer')) := call (s, buffer) (istream_read (S fuel') 0 len) in
        let* _ := ostream_write (S fuel') output buffer' len in
        export_loop (S fuel') input' output buffer' (remaining - len)) h)
      by (rewrite Hlendef, Hrem; reflexivity).
    erewrite bind_return
      by (apply call_return; apply istream_read_ifstream; lia).
    cbv beta iota.
    assert (Hup : length (upcoming s len) = len) by (rewrite length_upcoming; lia).
    set (buffer' := take 0 buffer ++ upcoming s len ++ drop (0 + len) buffer).
    assert (Hb' : length buffer' = buffer_size).
    { unfold buffer'. rewrite !length_app, take_0, length_drop, Hup. simpl. lia. }
    erewrite bind_return
      by (apply ostream_write_appends; [lia|eassumption]).
    rewrite (IH _ _ _ _ _ (written ++ take len buffer')); cbn [files console advance fd_bytes fd_offset].
    + rewrite advance_advance, insert_insert_eq.
      replace (len + (remaining - len)) with remaining by lia.
      do 3 f_equal.
      replace (take len buffer') with (upcoming s len).
      * rewrite <- app_assoc. f_equal.
        replace remaining with (len + (remaining - len)) at 2 by lia.
        now rewrite upcoming_add.
      * unfold buffer'. rewrite take_0. simpl.
        now rewrite take_app_length'.
    + lia.
    + assumption.
    + apply lookup_insert_eq.
    + lia.
Qed.

Lemma upcoming_middle s l1 l2 l3 n :
  fd_bytes s = l1 ++ l2 ++ l3 ->
  fd_offset s = length l1 ->
  n = length l2 ->
  upcoming s n = l2.
Proof.
  intros Hb Ho ->. unfold upcoming. rewrite Hb, Ho.
  now rewrite drop_app_length, take_app_length.
Qed.

(** C7.  A plain entry: at its offset the byte 8, the size as four
    little-endian bytes, then [size] bytes.  Extracting it writes exactly
    those bytes to the entry's file and leaves the stream behind them. *)
Theorem extract_entry_plain (fuel : nat) (stream : ifstream_impl)
    (input_filename : string) (i : nat) (offset : Z) (h : host)
    (before size payload after : list byte) :
  fd_bytes stream = before ++ x08 :: size ++ payload ++ after ->
  Z.to_nat offset = length before ->
  length size = 4 ->
  le_decode size = Z.of_nat (length payload) ->
  creatable (derive_output_filename input_filename i) = true ->
  length payload < fuel ->
  extract_entry fuel stream input_filename i offset h =
    Some (Return {| fd_bytes := fd_bytes stream;
                    fd_offset := length before + 5 + length payload |},
          {| files := <[derive_output_filename input_filename i := payload]> (files h);
             console := console h |}).
Proof.
  intros Hbytes Hoff Hsize Hdec Hcreate Hfuel.
  destruct fuel as [|fuel]; [lia|].
  unfold extract_entry.
  erewrite bind_return by (apply call_return; reflexivity).
  cbv beta iota. rewrite Hoff.
  set (s0 := {| fd_bytes := fd_bytes stream; fd_offset := length before |}).
  erewrite bind_return.
  2:{ apply call_return. apply (read_uint8_ifstream _ _ x08).
      subst s0. cbn [fd_bytes fd_offset]. rewrite Hbytes.
      apply list_lookup_middle. reflexivity. }
  cbv beta iota. change (u8 x08 =? 8)%Z with true. cbv iota.
  unfold export_plain_bitmap.
  assert (Hs1 : fd_offset (advance s0 1) + 4 <= length (fd_bytes (advance s0 1))).
  { subst s0. cbn [advance fd_bytes fd_offset]. rewrite Hbytes.
    rewrite length_app. cbn [length]. rewrite length_app. lia. }
  erewrite bind_return by (apply call_return; apply read_uint32_ifstream; exact Hs1).
  cbv beta iota.
  rewrite (upcoming_middle _ (before ++ [x08]) size (payload ++ after)).
  2:{ subst s0. cbn [advance fd_bytes fd_offset]. rewrite Hbytes.
      now rewrite <- app_assoc. }
  2:{ subst s0. cbn [advance fd_bytes fd_offset]. rewrite length_app. reflexivity. }
  2:{ now rewrite Hsize. }
  rewrite Hdec, Nat2Z.id.
  unfold export_bitmap.
  erewrite bind_return by (unfold ofstream_create; rewrite Hcreate; reflexivity).
  rewrite (export_loop_ifstream _ _ _ _ _ _ []).
  - cbn [files console]. rewrite insert_insert_eq.
    rewrite !advance_advance. unfold advance. subst s0. cbn [fd_bytes fd_offset].
    rewrite (upcoming_middle _ (before ++ x08 :: size) payload after).
    + replace (length before + (1 + (4 + length payload)))
        with (length before + 5 + length payload) by lia.
      reflexivity.
    + cbn [fd_bytes]. rewrite Hbytes. rewrite <- app_assoc. reflexivity.
    + cbn [fd_offset]. rewrite length_app. cbn [length]. lia.
    + reflexivity.
  - subst s0. cbn [advance fd_bytes fd_offset]. rewrite Hbytes.
    rewrite length_app. cbn [length]. rewrite !length_app. lia.
  - now rewrite length_map, length_seq.
  - cbn [files]. apply lookup_insert_eq.
  - lia.
Qed.

(** ** Entries of an unknown type *)

(** The message of the exception thrown at line 331 for the type byte
    [type]. *)
Definition unknown_type (type : byte) : exception :=
  runtime_error ("unknown type: " +:+ format_u (Z.to_nat (u8 type))).

Lemma extract_entry_unknown_type fuel stream input_filename i offset h type :
  0 < fuel ->
  fd_bytes stream !! Z.to_nat offset = Some type ->
  u8 type <> 8%Z ->
  u8 type <> 9%Z ->
  extract_entry fuel stream input_filename i offset h =
    Some (Throw (unknown_type type), h).
Proof.
  intros Hfuel Htype H8 H9.
  destruct fuel as [|fuel]; [lia|].
  unfold extract_entry.
  erewrite bind_return by (apply call_return; reflexivity).
  cbv beta iota.
  erewrite bind_return
    by (apply call_return; apply read_uint8_ifstream; exact Htype).
  cbv beta iota.
  destruct (Z.eqb_spec (u8 type) 8); [contradiction|].
  destruct (Z.eqb_spec (u8 type) 9); [contradiction|].
  reflexivity.
Qed.

(** The entries [i], [i + 1], ... at [offsets], one after the other, and
    the stream as the last of them leaves it. *)
Fixpoint extract_through (fuel : nat) (stream : ifstream_impl)
    (input_filename : string) (i : nat) (offsets : list Z)
  : M host ifstream_impl :=
  match offsets with
  | [] => ret stream
  | offset :: offsets' =>
    let* stream := extract_entry fuel stream input_filename i offset in
    extract_through fuel stream input_filename (S i) offsets'
  end.

Lemma extract_entries_app fuel input_filename earlier : forall stream i later h stream' h',
  extract_through fuel stream input_filename i earlier h = Some (Return stream', h') ->
  extract_entries fuel stream input_filename i (earlier ++ later) h =
    extract_entries fuel stream' input_filename (i + length earlier) later h'.
Proof.
  induction earlier as [|offset earlier IH]; intros stream i later h stream' h' Hrun.
  - injection Hrun as -> ->. now rewrite Nat.add_0_r.
  - cbn [extract_through] in Hrun. cbn [app extract_entries length].
    unfold bind in Hrun |- *.
    destruct (extract_entry fuel stream input_filename i offset h)
      as [[[s1| |] h1]|]; try discriminate.
    rewrite (IH _ _ _ _ _ _ Hrun). f_equal. lia.
Qed.

(** C9, as the code has it.  When the entries before it were extracted and
    the byte at an entry's offset is neither 8 nor 9, the extraction ends
    with the exception whose message is ["unknown type: "] and the byte in
    decimal; the files are those of the earlier entries, whatever entries
    follow in the directory. *)
Theorem extract_entries_unknown_type (fuel : nat) (stream stream' : ifstream_impl)
    (input_filename : string) (i : nat) (earlier later : list Z) (offset : Z)
    (h h' : host) (type : byte) :
  0 < fuel ->
  extract_through fuel stream input_filename i earlier h = Some (Return stream', h') ->
  fd_bytes stream' !! Z.to_nat offset = Some type ->
  u8 type <> 8%Z ->
  u8 type <> 9%Z ->
  extract_entries fuel stream input_filename i (earlier ++ offset :: later) h =
    Some (Throw (runtime_error ("unknown type: " +:+ format_u (Z.to_nat (u8 type)))), h').
Proof.
  intros Hfuel Hrun Htype H8 H9.
  rewrite (extract_entries_app _ _ _ _ _ _ _ _ _ Hrun).
  cbn [extract_entries].
  now rewrite (bind_throw _ _ _ _ _
                 (extract_entry_unknown_type _ _ _ _ _ _ _ Hfuel Htype H8 H9)).
Qed.

End Reader.

(** ** The decoder never finishes a read *)

Section Decoder.
Context {P : platform}.

(** The bytes of the file that lie beyond the offset. *)
Definition available (s : ifstream_impl) : nat :=
  length (fd_bytes s) - fd_offset s.

Lemma available_advance s n :
  0 < n -> fd_offset s + n <= length (fd_bytes s) ->
  available (advance s n) < available s.
Proof. unfold available, advance. cbn [fd_bytes fd_offset]. lia. Qed.

(** A read of [size] bytes from a file returns them or throws
    [end_of_stream]. *)
Lemma read_value_ifstream_cases fuel size s :
  0 < size ->
  (fd_offset s + size <= length (fd_bytes s) /\
   read_value (S (S fuel)) size s = Some (Return (upcoming s size), advance s size))
  \/ (exists s', read_value (S (S fuel)) size s = Some (Throw end_of_stream, s')).
Proof.
  intros Hsize.
  destruct (le_lt_dec (fd_offset s + size) (length (fd_bytes s))) as [Hle|Hlt].
  - left. split; [assumption|]. now apply read_value_ifstream.
  - right. destruct (read_value_ifstream_eos fuel size s Hsize Hlt) as [s' [Hs' _]].
    eauto.
Qed.

Lemma read_uint16_ifstream_cases fuel s :
  (fd_offset s + 2 <= length (fd_bytes s) /\
   read_uint16 (S (S fuel)) s = Some (Return (le_decode (upcoming s 2)), advance s 2))
  \/ (exists s', read_uint16 (S (S fuel)) s = Some (Throw end_of_stream, s')).
Proof.
  unfold read_uint16.
  destruct (read_value_ifstream_cases fuel 2 s ltac:(lia)) as [[Hle Hr]|[s' Hr]].
  - left. split; [assumption|]. now rewrite (bind_return _ _ _ _ _ Hr).
  - right. exists s'. now rewrite (bind_throw _ _ _ _ _ Hr).
Qed.

Lemma read_uint8_ifstream_cases fuel s :
  (exists value,
     fd_offset s + 1 <= length (fd_bytes s) /\
     read_uint8 (S (S fuel)) s = Some (Return value, advance s 1))
  \/ (exists s', read_uint8 (S (S fuel)) s = Some (Throw end_of_stream, s')).
Proof.
  destruct (fd_bytes s !! fd_offset s) as [value|] eqn:Hv.
  - left. exists value. split.
    + apply lookup_lt_Some in Hv. lia.
    + now apply read_uint8_ifstream.
  - right. apply lookup_ge_None in Hv. unfold read_uint8.
    destruct (read_value_ifstream_eos fuel 1 s ltac:(lia) ltac:(lia)) as [s' [Hr _]].
    exists s'. now rewrite (bind_throw _ _ _ _ _ Hr).
Qed.

Lemma on_stream_return {I A} (m : M I A) (d : ilzrwstream_impl I) a s' :
  m (m_stream d) = Some (Return a, s') ->
  on_stream m d = Some (Return a, with_stream d s').
Proof. unfold on_stream. now intros ->. Qed.

Lemma on_stream_throw {I A} (m : M I A) (d : ilzrwstream_impl I) e s' :
  m (m_stream d) = Some (Throw e, s') ->
  on_stream m d = Some (Throw e, with_stream d s').
Proof. unfold on_stream. now intros ->. Qed.

Lemma on_decoder_run {D A} (m : M D A) (d d' : D) (buffer : list byte) o :
  m d = Some (o, d') -> on_decoder m (d, buffer) = Some (o, (d', buffer)).
Proof. unfold on_decoder. now intros ->. Qed.

Lemma read_control_bits_cases fuel (d : ilzrwstream_impl ifstream_impl) :
  (fd_offset (m_stream d) + 2 <= length (fd_bytes (m_stream d)) /\
   exists bits,
     read_control_bits (S (S fuel)) d =
       Some (Return tt,
             {| m_stream := advance (m_stream d) 2;
                m_window := m_window d;
                m_window_index := m_window_index d;
                m_control_bits := bits;
                m_control_remaining := m_control_remaining d |}))
  \/ (exists d', read_control_bits (S (S fuel)) d = Some (Throw end_of_stream, d')).
Proof.
  unfold read_control_bits.
  destruct (le_lt_dec (fd_offset (m_stream d) + 2) (length (fd_bytes (m_stream d))))
    as [Hle|Hlt].
  - left. split; [assumption|].
    rewrite istream_read_ifstream by (assumption || (cbn [le_encode length]; lia)).
    eauto.
  - right.
    destruct (istream_read_ifstream_eos fuel (le_encode 2 (m_control_bits d)) 0 2
                (m_stream d) ltac:(lia) Hlt ltac:(cbn [le_encode length]; lia))
      as (s' & buffer' & -> & _).
    eauto.
Qed.

Lemma refill_control_cases fuel (d : ilzrwstream_impl ifstream_impl) :
  (exists d', refill_control (S (S fuel)) d = Some (Return tt, d')
              /\ available (m_stream d') <= available (m_stream d))
  \/ (exists d', refill_control (S (S fuel)) d = Some (Throw end_of_stream, d')).
Proof.
  unfold refill_control.
  rewrite (bind_return get _ d d d eq_refl).
  destruct (m_control_remaining d =? 0)%Z.
  - destruct (read_control_bits_cases fuel d) as [[Hle [bits Hr]]|[d' Hr]].
    + left. eexists. split.
      * rewrite (bind_return _ _ _ _ _ Hr).
        rewrite (bind_return get _ _ _ _ eq_refl). reflexivity.
      * cbn [m_stream].
        apply Nat.lt_le_incl, available_advance; [lia|assumption].
    + right. eexists. now rewrite (bind_throw _ _ _ _ _ Hr).
  - left. exists d. split; [reflexivity|lia].
Qed.

Lemma store_bytes_one_other buffer dst value buffer' j :
  store_bytes buffer dst [value] = Some buffer' ->
  j <> dst ->
  buffer' !! j = buffer !! j.
Proof.
  unfold store_bytes. cbn [length].
  destruct (decide (dst + 1 <= length buffer)) as [Hle|]; [|discriminate].
  intros [= <-] Hj.
  destruct (decide (j < dst)) as [Hlt|Hge].
  - rewrite lookup_app_l by (rewrite length_take; lia).
    now rewrite lookup_take_lt.
  - rewrite lookup_app_r by (rewrite length_take; lia).
    rewrite length_take, Nat.min_l by lia.
    destruct (j - dst) as [|k] eqn:Hk; [lia|].
    cbn [app]. rewrite lookup_cons. cbv iota.
    rewrite lookup_drop. f_equal. lia.
Qed.

(** The copy loop of a back-reference returns or reads out of bounds; it
    leaves the decoder as it was, and the buffer too but for the byte at
    [dst]. *)
Lemma backref_loop_frame {I} ofs todo dst :
  forall i (d : ilzrwstream_impl I) buffer,
  exists o buffer',
    backref_loop ofs i todo dst (d, buffer) = Some (o, (d, buffer'))
    /\ (o = Return tt \/ o = Undefined)
    /\ forall j, j <> dst -> buffer' !! j = buffer !! j.
Proof.
  induction todo as [|todo IH]; intros i d buffer; cbn [backref_loop].
  - exists (Return tt), buffer. auto.
  - rewrite (bind_return _ _ _ _ _ (on_decoder_run get d d buffer _ eq_refl)).
    destruct (m_window d !! _) as [value|].
    + unfold bind, store_at.
      destruct (store_bytes buffer dst [value]) as [buffer1|] eqn:Hstore.
      * destruct (IH (i + 1)%Z d buffer1) as (o & buffer' & -> & Ho & Hframe).
        exists o, buffer'. split; [reflexivity|]. split; [assumption|].
        intros j Hj. rewrite (Hframe j Hj).
        eapply store_bytes_one_other; eassumption.
      * exists Undefined, buffer. auto.
    + exists Undefined, buffer. auto.
Qed.

(** What one token may end in, over a file: an exception for the end of
    the stream, an access out of bounds, or a return after at least one byte
    of the file was consumed. *)
Definition token_progress (d : ilzrwstream_impl ifstream_impl)
    (r : option (outcome unit * (ilzrwstream_impl ifstream_impl * list byte)))
  : Prop :=
  exists o d' buffer', r = Some (o, (d', buffer')) /\
    match o with
    | Return _ => available (m_stream d') < available (m_stream d)
    | Throw e => e = end_of_stream
    | Undefined => True
    end.

Ltac ends_token :=
  do 3 eexists; (split; [reflexivity|]); first [reflexivity | exact I].

(** A token over a file, with fuel for its reads. *)
Lemma lzrw_token_progress fuel dst (d : ilzrwstream_impl ifstream_impl) buffer :
  token_progress d (lzrw_token (S (S fuel)) dst (d, buffer)).
Proof.
  unfold token_progress, lzrw_token.
  destruct (refill_control_cases fuel d) as [[d1 [Hr Hav]]|[d1 Hr]].
  2:{ rewrite (bind_throw _ _ _ _ _ (on_decoder_run _ _ _ buffer _ Hr)). ends_token. }
  rewrite (bind_return _ _ _ _ _ (on_decoder_run _ _ _ buffer _ Hr)).
  rewrite (bind_return _ _ _ _ _ (on_decoder_run get d1 d1 buffer _ eq_refl)).
  destruct (negb (Z.land (m_control_bits d1) 1 =? 0)%Z).
  - destruct (read_uint16_ifstream_cases fuel (m_stream d1)) as [[Hle Hr2]|[s' Hr2]].
    2:{ rewrite (bind_throw _ _ _ _ _
                   (on_decoder_run _ _ _ buffer _ (on_stream_throw _ d1 _ _ Hr2))).
        ends_token. }
    rewrite (bind_return _ _ _ _ _
               (on_decoder_run _ _ _ buffer _ (on_stream_return _ d1 _ _ Hr2))).
    destruct (backref_loop_frame
                (backref_ofs (le_decode (upcoming (m_stream d1) 2))) 
                (Z.to_nat (backref_len (le_decode (upcoming (m_stream d1) 2))))
                dst 0%Z (with_stream d1 (advance (m_stream d1) 2)) buffer)
      as (o & buffer' & -> & [->| ->] & _).
    + do 3 eexists. split; [reflexivity|]. cbn [m_stream with_stream].
      pose proof (available_advance (m_stream d1) 2 ltac:(lia) Hle). lia.
    + ends_token.
  - destruct (read_uint8_ifstream_cases fuel (m_stream d1))
      as [[value [Hle Hr2]]|[s' Hr2]].
    2:{ rewrite (bind_throw _ _ _ _ _
                   (on_decoder_run _ _ _ buffer _ (on_stream_throw _ d1 _ _ Hr2))).
        ends_token. }
    rewrite (bind_return _ _ _ _ _
               (on_decoder_run _ _ _ buffer _ (on_stream_return _ d1 _ _ Hr2))).
    unfold bind at 1, store_at.
    destruct (store_bytes buffer dst [value]) as [buffer'|]; [|ends_token].
    do 3 eexists. split; [reflexivity|]. cbn [m_stream with_stream].
    pose proof (available_advance (m_stream d1) 1 ltac:(lia) Hle). lia.
Qed.

(** The loop of [try_read] over a file, entered with [remaining > 0]. *)
Lemma lzrw_loop_never_returns fuel at_ total remaining :
  forall (d : ilzrwstream_impl ifstream_impl) (buffer : list byte),
  0 < remaining ->
  available (m_stream d) + 3 <= fuel ->
  exists o d' buffer',
    lzrw_loop fuel at_ total remaining (d, buffer) = Some (o, (d', buffer'))
    /\ (o = Throw end_of_stream \/ o = Undefined).
Proof.
  induction fuel as [|fuel IH]; intros d buffer Hremaining Hfuel; [lia|].
  destruct remaining as [|n]; [lia|].
  cbn [lzrw_loop].
  destruct fuel as [|[|fuel]]; [lia|lia|].
  destruct (lzrw_token_progress fuel (at_ + (total - S n)) d buffer)
    as (o & d1 & buffer1 & Hr & Ho).
  destruct o as [[]|e|].
  - rewrite (bind_return _ _ _ _ _ Hr). apply IH; lia.
  - subst e. rewrite (bind_throw _ _ _ _ _ Hr). eauto 6.
  - rewrite (bind_undefined _ _ _ _ Hr). eauto 6.
Qed.

(** For every [amount > 0], a read from the decoder over a file does not
    return: it ends in [end_of_stream], or in an access out of bounds. *)
Theorem ilzrwstream_try_read_never_returns (fuel at_ amount : nat)
    (d : ilzrwstream_impl ifstream_impl) (buffer : list byte) :
  0 < amount ->
  available (m_stream d) + 3 <= fuel ->
  exists d' buffer',
    ilzrwstream_try_read fuel at_ amount (d, buffer)
      = Some (Throw end_of_stream, (d', buffer'))
    \/ ilzrwstream_try_read fuel at_ amount (d, buffer)
      = Some (Undefined, (d', buffer')).
Proof.
  intros Hamount Hfuel. unfold ilzrwstream_try_read.
  destruct (lzrw_loop_never_returns fuel at_ amount amount d buffer Hamount Hfuel)
    as (o & d' & buffer' & -> & [->| ->]); eauto.
Qed.

Lemma export_bitmap_over_decoder fuel (d : ilzrwstream_impl ifstream_impl)
    filename amount h :
  0 < amount ->
  creatable filename = true ->
  available (m_stream d) + 5 <= fuel ->
  exists o,
    export_bitmap fuel d filename amount h =
      Some (o, {| files := <[filename := []]> (files h); console := console h |})
    /\ (o = Throw end_of_stream \/ o = Undefined).
Proof.
  intros Hamount Hcreate Hfuel. unfold export_bitmap.
  erewrite bind_return by (unfold ofstream_create; rewrite Hcreate; reflexivity).
  destruct fuel as [|[|fuel]]; [lia|lia|].
  destruct amount as [|n]; [lia|].
  cbn [export_loop].
  set (len := Nat.min (S n) buffer_size).
  assert (Hlen : exists k, len = S k).
  { destruct len as [|k] eqn:Hk; [|eauto].
    exfalso. revert Hk. unfold len, buffer_size. lia. }
  destruct Hlen as [k ->].
  unfold bind at 1, call, istream_read. cbn [read_loop].
  unfold bind at 1.
  unfold try_read at 1, ilzrwstream_istream, ilzrwstream_try_read.
  destruct (lzrw_loop_never_returns fuel (0 + (S k - S k)) (S k) (S k) d
              (map uninitialized (seq 0 buffer_size)) ltac:(lia) ltac:(lia))
    as (o & d' & buffer' & -> & [->| ->]); eauto.
Qed.

(** Copying [amount > 0] bytes out of a decoder over a file creates the
    output file and then throws or reads out of bounds: no byte is written
    to the file. *)
Theorem export_bitmap_ilzrwstream_never_returns (fuel : nat)
    (d : ilzrwstream_impl ifstream_impl) (filename : string) (amount : nat)
    (h : host) :
  0 < amount ->
  creatable filename = true ->
  available (m_stream d) + 5 <= fuel ->
  exists o,
    export_bitmap fuel d filename amount h =
      Some (o, {| files := <[filename := []]> (files h); console := console h |})
    /\ (o = Throw end_of_stream \/ o = Undefined).
Proof. apply export_bitmap_over_decoder. Qed.

(** ** The control word is never shifted *)

Lemma bind_inv {St A B} (m : M St A) (k : A -> M St B) s o s' :
  bind m k s = Some (o, s') ->
  (exists a s1, m s = Some (Return a, s1) /\ k a s1 = Some (o, s'))
  \/ (exists e, m s = Some (Throw e, s') /\ o = Throw e)
  \/ (m s = Some (Undefined, s') /\ o = Undefined).
Proof.
  unfold bind. destruct (m s) as [[[a|e|] s1]|]; [| | |discriminate].
  - intros Hk. left. eauto.
  - intros [= <- <-]. right. left. eauto.
  - intros [= <- <-]. right. right. eauto.
Qed.

Lemma on_stream_inv {I A} (m : M I A) (d d' : ilzrwstream_impl I) o :
  on_stream m d = Some (o, d') ->
  exists stream', d' = with_stream d stream'.
Proof.
  unfold on_stream. destruct (m (m_stream d)) as [[o1 s1]|]; [|discriminate].
  intros [= <- <-]. eauto.
Qed.

Lemma on_decoder_inv {D A} (m : M D A) (d d' : D) (buffer buffer' : list byte) o :
  on_decoder m (d, buffer) = Some (o, (d', buffer')) ->
  m d = Some (o, d') /\ buffer' = buffer.
Proof.
  unfold on_decoder. destruct (m d) as [[o1 d1]|]; [|discriminate].
  now intros [= <- <- <-].
Qed.

(** The control fields of [d'] are those of [d]. *)
Definition same_control {I} (d d' : ilzrwstream_impl I) : Prop :=
  m_control_bits d' = m_control_bits d
  /\ m_control_remaining d' = m_control_remaining d.

(** The window of [d'] and its index are those of [d]. *)
Definition same_window {I} (d d' : ilzrwstream_impl I) : Prop :=
  m_window d' = m_window d /\ m_window_index d' = m_window_index d.

Lemma refill_control_inv {I} `{istream I} fuel (d d' : ilzrwstream_impl I) o :
  refill_control fuel d = Some (o, d') ->
  (m_control_remaining d <> 0%Z -> o = Return tt /\ d' = d)
  /\ (m_control_remaining d = 0%Z -> o = Return tt -> m_control_remaining d' = 16%Z).
Proof.
  unfold refill_control. rewrite (bind_return get _ d d d eq_refl).
  destruct (Z.eqb_spec (m_control_remaining d) 0) as [Hz|Hnz].
  - intros Hrun. split; [contradiction|]. intros _ ->.
    apply bind_inv in Hrun as [([] & d1 & Hread & Hput)|[(e & _ & [=])|(_ & [=])]].
    rewrite (bind_return get _ d1 d1 d1 eq_refl) in Hput.
    injection Hput as <-. reflexivity.
  - intros [= <- <-]. split; [auto|contradiction].
Qed.

(** What follows the control word in a token: the reads, the stores and
    the step of the window leave the control fields alone. *)
Lemma lzrw_token_rest_same_control {I} `{istream I} fuel dst
    (d d' : ilzrwstream_impl I) buffer buffer' (o : outcome unit) :
  (if negb (Z.land (m_control_bits d) 0x1 =? 0)%Z then
     let* tmp := on_decoder (on_stream (read_uint16 fuel)) in
     backref_loop (backref_ofs tmp) 0 (Z.to_nat (backref_len tmp)) dst
   else
     let* value := on_decoder (on_stream (read_uint8 fuel)) in
     let* _ := store_at dst value in
     on_decoder (window_push value)) (d, buffer) = Some (o, (d', buffer')) ->
  same_control d d'.
Proof.
  destruct (negb _); intros Hrun.
  - apply bind_inv in Hrun as [(tmp & [d2 b2] & Hread & Hrest)|Hstop].
    + apply on_decoder_inv in Hread as [[s2 ->]%on_stream_inv ->].
      destruct (backref_loop_frame (backref_ofs tmp) (Z.to_nat (backref_len tmp))
                  dst 0%Z (with_stream d s2) buffer) as (o1 & b1 & Hloop & _).
      rewrite Hloop in Hrest. injection Hrest as _ <- _. now split.
    + destruct Hstop as [(e & Hread & _)|(Hread & _)];
        apply on_decoder_inv in Hread as [[s2 ->]%on_stream_inv _]; now split.
  - apply bind_inv in Hrun as [(value & [d2 b2] & Hread & Hrest)|Hstop].
    + apply on_decoder_inv in Hread as [[s2 ->]%on_stream_inv ->].
      unfold bind, store_at in Hrest.
      destruct (store_bytes buffer dst [value]).
      * injection Hrest as _ <- _. now split.
      * injection Hrest as _ <- _. now split.
    + destruct Hstop as [(e & Hread & _)|(Hread & _)];
        apply on_decoder_inv in Hread as [[s2 ->]%on_stream_inv _]; now split.
Qed.

(** However a token ends, it leaves the control word and the count of its
    remaining bits as they were, once a control word has been read; the
    token that reads the control word leaves the count at 16. *)
Theorem lzrw_token_keeps_control {I} `{istream I} (fuel dst : nat)
    (d d' : ilzrwstream_impl I) (buffer buffer' : list byte)
    (o : outcome unit) :
  lzrw_token fuel dst (d, buffer) = Some (o, (d', buffer')) ->
  (m_control_remaining d <> 0%Z -> same_control d d')
  /\ (m_control_remaining d = 0%Z -> o = Return tt -> m_control_remaining d' = 16%Z).
Proof.
  unfold lzrw_token. intros Hrun.
  apply bind_inv in Hrun as [([] & [d1 b1] & Hrefill & Hrest)|Hstop].
  2:{ destruct Hstop as [(e & Hrefill & ->)|(Hrefill & ->)];
        apply on_decoder_inv in Hrefill as [Hrefill _];
        apply refill_control_inv in Hrefill as [Hkeep _];
        (split; [intros Hnz; now destruct (Hkeep Hnz)|discriminate]). }
  apply on_decoder_inv in Hrefill as [Hrefill ->].
  rewrite (bind_return _ _ _ _ _ (on_decoder_run get d1 d1 buffer _ eq_refl)) in Hrest.
  apply lzrw_token_rest_same_control in Hrest as [Hbits Hrem].
  apply refill_control_inv in Hrefill as [Hkeep Hfill].
  split.
  - intros Hnz. destruct (Hkeep Hnz) as [_ ->]. now split.
  - intros Hz _. rewrite Hrem. now apply Hfill.
Qed.

(** ** A back-reference stores at one place and keeps the window *)

(** A token decoded as a back-reference changes no byte of the output but
    the one at [dst], and leaves the window and its index as they were,
    however it ends. *)
Theorem lzrw_token_backref_frame {I} `{istream I} (fuel dst : nat)
    (d d' : ilzrwstream_impl I) (buffer buffer' : list byte)
    (o : outcome unit) :
  m_control_remaining d <> 0%Z ->
  Z.land (m_control_bits d) 1 <> 0%Z ->
  lzrw_token fuel dst (d, buffer) = Some (o, (d', buffer')) ->
  same_window d d'
  /\ forall j, j <> dst -> buffer' !! j = buffer !! j.
Proof.
  intros Hnz Hbit. unfold lzrw_token. intros Hrun.
  apply bind_inv in Hrun as [([] & [d1 b1] & Hrefill & Hrun)|Hstop].
  2:{ destruct Hstop as [(e & Hrefill & _)|(Hrefill & _)];
        apply on_decoder_inv in Hrefill as [Hrefill ->];
        apply refill_control_inv in Hrefill as [Hkeep _];
        destruct (Hkeep Hnz) as [_ ->]; now repeat split. }
  apply on_decoder_inv in Hrefill as [Hrefill ->].
  apply refill_control_inv in Hrefill as [Hkeep _].
  destruct (Hkeep Hnz) as [_ ->].
  rewrite (bind_return _ _ _ _ _ (on_decoder_run get d d buffer _ eq_refl)) in Hrun.
  destruct (Z.eqb_spec (Z.land (m_control_bits d) 1) 0) as [|_]; [contradiction|].
  cbn [negb] in Hrun.
  apply bind_inv in Hrun as [(tmp & [d2 b2] & Hread & Hrest)|Hstop].
  - apply on_decoder_inv in Hread as [[s2 ->]%on_stream_inv ->].
    destruct (backref_loop_frame (backref_ofs tmp) (Z.to_nat (backref_len tmp))
                dst 0%Z (with_stream d s2) buffer) as (o1 & b1 & Hloop & _ & Hframe).
    rewrite Hloop in Hrest. injection Hrest as _ <- <-.
    split; [now split|exact Hframe].
  - destruct Hstop as [(e & Hread & _)|(Hread & _)];
      apply on_decoder_inv in Hread as [[s2 ->]%on_stream_inv ->];
      now repeat split.
Qed.

End Decoder.

(** * The code on concrete inputs *)

(** Storage that was never written holds zeroes; every file but the one
    without a name can be created. *)
Definition zeroed : platform :=
  {| uninitialized := fun _ => x00;
     creatable := fun filename => negb (String.eqb filename "") |}.

(** As [zeroed], but storage that was never written holds 0xAA. *)
Definition stale : platform :=
  {| uninitialized := fun _ => xaa;
     creatable := fun filename => negb (String.eqb filename "") |}.

(** A file just opened. *)
Definition opened (bytes : list byte) : ifstream_impl :=
  {| fd_bytes := bytes; fd_offset := 0 |}.

(** C1.  A read of one byte from the stream [00 00 41], a control word of
    literals and the literal ['A']: the decoder takes the literal (it is in
    the buffer and in the window, the index is 1) and then, instead of
    returning, asks the file for another token and throws
    [end_of_stream]. *)
Example try_read_one_byte_throws :
  let d := wrap (P := zeroed) (opened [x00; x00; x41]) in
  ilzrwstream_try_read (P := zeroed) 6 0 1 (d, [x00]) =
    Some (Throw end_of_stream,
          ({| m_stream := {| fd_bytes := [x00; x00; x41]; fd_offset := 3 |};
              m_window := <[0 := x41]> (m_window d);
              m_window_index := 1;
              m_control_bits := 0;
              m_control_remaining := 16 |},
           [x41])).
Proof. vm_compute. reflexivity. Qed.

(** C2.  The stream [02 00 41 01 03]: the control word 2 announces a
    literal and then a back-reference.  The decoder takes three literals,
    [41], [01] and [03]: bit 0 of the unshifted control word decides every
    token, and the count of remaining bits stays 16. *)
Example control_word_is_not_consumed :
  let d := wrap (P := zeroed) (opened [x02; x00; x41; x01; x03]) in
  ilzrwstream_try_read (P := zeroed) 8 0 5 (d, replicate 5 x00) =
    Some (Throw end_of_stream,
          ({| m_stream := {| fd_bytes := [x02; x00; x41; x01; x03]; fd_offset := 5 |};
              m_window := <[2 := x03]> (<[1 := x01]> (<[0 := x41]> (m_window d)));
              m_window_index := 3;
              m_control_bits := 2;
              m_control_remaining := 16 |},
           [x03; x00; x00; x00; x00])).
Proof. vm_compute. reflexivity. Qed.

(** C3.  The stream [01 00 02 01]: a back-reference of distance 2 and
    length 2, decoded into a buffer of two bytes 0xCC.  Both bytes are
    stored at the first place of the buffer, the second place keeps 0xCC,
    the window is as it was and its index is still 0. *)
Example backref_stores_at_one_place :
  let d := wrap (P := zeroed) (opened [x01; x00; x02; x01]) in
  backref_ofs 0x0102 = 2%Z /\ backref_len 0x0102 = 2%Z /\
  lzrw_token (P := zeroed) 2 0 (d, [xcc; xcc]) =
    Some (Return tt,
          ({| m_stream := {| fd_bytes := [x01; x00; x02; x01]; fd_offset := 4 |};
              m_window := m_window d;
              m_window_index := 0;
              m_control_bits := 1;
              m_control_remaining := 16 |},
           [x00; xcc])).
Proof. vm_compute. repeat split; reflexivity. Qed.

(** C4.  The window of a decoder just made is what its storage held; on
    storage that holds 0xAA, the stream [01 00 00 00], a back-reference of
    distance 0 and length 1 as the first token, gives 0xAA. *)
Example window_is_not_cleared :
  let d := wrap (P := stale) (opened [x01; x00; x00; x00]) in
  m_window d = replicate 4096 xaa /\
  lzrw_token (P := stale) 2 0 (d, [x00]) =
    Some (Return tt,
          ({| m_stream := {| fd_bytes := [x01; x00; x00; x00]; fd_offset := 4 |};
              m_window := m_window d;
              m_window_index := 0;
              m_control_bits := 1;
              m_control_remaining := 16 |},
           [xaa])).
Proof. split; vm_compute; reflexivity. Qed.

(** C5.  The stream [01 00 01 01]: a back-reference of distance 1 and
    length 2 as the first token.  Its second byte is read at index 4096 of
    the window. *)
Example backref_reads_past_window :
  let d := wrap (P := zeroed) (opened [x01; x00; x01; x01]) in
  backref_ofs 0x0101 = 1%Z /\ backref_len 0x0101 = 2%Z /\
  backref_index (m_window_index d) 1 1 = 4096%Z /\
  length (m_window d) = 4096 /\
  m_window d !! 4096 = None /\
  exists st, lzrw_token (P := zeroed) 2 0 (d, [x00; x00]) = Some (Undefined, st).
Proof. repeat split; try (vm_compute; reflexivity). eexists. vm_compute. reflexivity. Qed.

(** ** The theorems on concrete archives *)

(** Version 8, the bitmap-list tag, one entry at offset 17: a plain entry
    of the four bytes [DE AD BE EF]; after it a byte 0xFF. *)
Definition one_plain_entry : list byte :=
  [x08] ++ list_byte_of_string "LMDBML30"
    ++ [x01; x00; x00; x00] ++ [x11; x00; x00; x00]
    ++ [x08] ++ [x04; x00; x00; x00] ++ [xde; xad; xbe; xef]
    ++ [xff].

(** No file but the archive, nothing printed yet. *)
Definition only (filename : string) (bytes : list byte) : host :=
  {| files := {[ filename := bytes ]}; console := [] |}.

Lemma extract_entry_plain_witness :
  let h := only "a.ris" one_plain_entry in
  extract_entry (P := zeroed) 5 (opened one_plain_entry) "a.ris" 0 17 h =
    Some (Return {| fd_bytes := one_plain_entry; fd_offset := 26 |},
          {| files := <["a.0.bmp"%string := [xde; xad; xbe; xef]]> (files h);
             console := [] |}).
Proof.
  intros h.
  apply (extract_entry_plain (P := zeroed) 5 (opened one_plain_entry) "a.ris" 0 17 h
           (take 17 one_plain_entry) [x04; x00; x00; x00] [xde; xad; xbe; xef] [xff]).
  - reflexivity.
  - reflexivity.
  - reflexivity.
  - reflexivity.
  - reflexivity.
  - vm_compute. lia.
Defined.

Lemma extract_without_bitmap_list_witness :
  let archive := [x08] ++ list_byte_of_string "LMDBML3X" ++ [x01] in
  extract (P := zeroed) 1 "a.ris" (only "a.ris" archive) =
    Some (Return tt,
          {| files := {[ "a.ris"%string := archive ]};
             console := ["a.ris"%string; "Does not contain images"%string] |}).
Proof.
  intros archive.
  apply (extract_without_bitmap_list (P := zeroed) 1 "a.ris" (only "a.ris" archive)
           (list_byte_of_string "LMDBML3X") [x01]).
  - lia.
  - vm_compute. reflexivity.
  - reflexivity.
  - intros Heq. vm_compute in Heq. discriminate Heq.
Defined.

Lemma extract_entries_unknown_type_witness :
  let h := only "a.ris" one_plain_entry in
  extract_entries (P := zeroed) 5 (opened one_plain_entry) "a.ris" 0 [17; 26; 5]%Z h =
    Some (Throw (runtime_error "unknown type: 255"),
          {| files := <["a.0.bmp"%string := [xde; xad; xbe; xef]]> (files h);
             console := [] |}).
Proof.
  intros h.
  apply (extract_entries_unknown_type (P := zeroed) 5 (opened one_plain_entry)
           {| fd_bytes := one_plain_entry; fd_offset := 26 |}
           "a.ris" 0 [17%Z] [5%Z] 26 h _ xff).
  - lia.
  - vm_compute. reflexivity.
  - reflexivity.
  - discriminate.
  - discriminate.
Defined.

Lemma ilzrwstream_try_read_never_returns_witness :
  let d := wrap (P := zeroed) (opened [x00; x00; x41]) in
  exists d' buffer',
    ilzrwstream_try_read (P := zeroed) 6 0 1 (d, [x00])
      = Some (Throw end_of_stream, (d', buffer'))
    \/ ilzrwstream_try_read (P := zeroed) 6 0 1 (d, [x00])
      = Some (Undefined, (d', buffer')).
Proof.
  intros d.
  apply (ilzrwstream_try_read_never_returns (P := zeroed) 6 0 1 d [x00]).
  - lia.
  - vm_compute. lia.
Defined.

(** A decoder in the middle of the stream [02 00 41 01 03]: the control
    word and the literal [41] were read. *)
Definition after_one_literal : ilzrwstream_impl ifstream_impl :=
  {| m_stream := {| fd_bytes := [x02; x00; x41; x01; x03]; fd_offset := 3 |};
     m_window := <[0 := x41]> (replicate 4096 x00);
     m_window_index := 1;
     m_control_bits := 2;
     m_control_remaining := 16 |}.

Lemma lzrw_token_keeps_control_witness :
  let d' := {| m_stream := {| fd_bytes := [x02; x00; x41; x01; x03]; fd_offset := 4 |};
               m_window := <[1 := x01]> (m_window after_one_literal);
               m_window_index := 2;
               m_control_bits := 2;
               m_control_remaining := 16 |} in
  lzrw_token (P := zeroed) 2 0 (after_one_literal, [x41; x00])
    = Some (Return tt, (d', [x01; x00]))
  /\ same_control after_one_literal d'.
Proof.
  intros d'.
  assert (Hrun : lzrw_token (P := zeroed) 2 0 (after_one_literal, [x41; x00])
                 = Some (Return tt, (d', [x01; x00]))) by (vm_compute; reflexivity).
  split; [exact Hrun|].
  apply (lzrw_token_keeps_control (P := zeroed) 2 0 after_one_literal d'
           [x41; x00] [x01; x00] (Return tt) Hrun).
  discriminate.
Defined.

(** A decoder in the middle of the stream [01 00 02 01 02 01], after its
    first back-reference. *)
Definition after_one_backref : ilzrwstream_impl ifstream_impl :=
  {| m_stream := {| fd_bytes := [x01; x00; x02; x01; x02; x01]; fd_offset := 4 |};
     m_window := replicate 4096 x00;
     m_window_index := 0;
     m_control_bits := 1;
     m_control_remaining := 16 |}.

Lemma lzrw_token_backref_frame_witness :
  let d' := with_stream after_one_backref
              {| fd_bytes := [x01; x00; x02; x01; x02; x01]; fd_offset := 6 |} in
  lzrw_token (P := zeroed) 2 0 (after_one_backref, [xcc; xcc])
    = Some (Return tt, (d', [x00; xcc]))
  /\ same_window after_one_backref d'
  /\ forall j, j <> 0 -> [x00; xcc] !! j = [xcc; xcc] !! j.
Proof.
  intros d'.
  assert (Hrun : lzrw_token (P := zeroed) 2 0 (after_one_backref, [xcc; xcc])
                 = Some (Return tt, (d', [x00; xcc]))) by (vm_compute; reflexivity).
  split; [exact Hrun|].
  apply (lzrw_token_backref_frame (P := zeroed) 2 0 after_one_backref d'
           [xcc; xcc] [x00; xcc] (Return tt)); [discriminate|discriminate|exact Hrun].
Defined.

(** ** Whole archives *)

(** An archive with one plain entry of four bytes gives one file, named
    after the archive and the entry's index, with those four bytes. *)
Example extract_one_plain_entry :
  let archive := take 26 one_plain_entry in
  extract (P := zeroed) 5 "a.ris" (only "a.ris" archive) =
    Some (Return tt,
          {| files := <["a.0.bmp"%string := [xde; xad; xbe; xef]]>
                        {[ "a.ris"%string := archive ]};
             console := ["a.ris"%string] |}).
Proof. vm_compute. reflexivity. Qed.

(** Version 8, the bitmap-list tag, one entry at offset 17: a compressed
    entry of decoded size 5, encoded size 5 and flags 0, whose stream
    [02 00 41 01 03] encodes the literal ['A'] and a back-reference of
    distance 1 and length 4. *)
Definition one_compressed_entry : list byte :=
  [x08] ++ list_byte_of_string "LMDBML30"
    ++ [x01; x00; x00; x00] ++ [x11; x00; x00; x00]
    ++ [x09] ++ [x05; x00; x00; x00] ++ [x05; x00; x00; x00] ++ [x00]
    ++ [x02; x00; x41; x01; x03].

(** Extracting it creates the entry's file and throws [end_of_stream]
    before any byte is written to the file. *)
Example extract_one_compressed_entry :
  extract (P := zeroed) 12 "a.ris" (only "a.ris" one_compressed_entry) =
    Some (Throw end_of_stream,
          {| files := <["a.0.bmp"%string := []]>
                        {[ "a.ris"%string := one_compressed_entry ]};
             console := ["a.ris"%string] |}).
Proof. vm_compute. reflexivity. Qed.

Lemma export_bitmap_ilzrwstream_never_returns_witness :
  let d := wrap (P := zeroed) (opened [x02; x00; x41; x01; x03]) in
  exists o,
    export_bitmap (P := zeroed) (H := ilzrwstream_istream (P := zeroed))
      10 d "a.0.bmp" 5 (only "a.ris" one_compressed_entry) =
      Some (o, {| files := <["a.0.bmp"%string := []]>
                             {[ "a.ris"%string := one_compressed_entry ]};
                  console := [] |})
    /\ (o = Throw end_of_stream \/ o = Undefined).
Proof.
  intros d.
  apply (export_bitmap_ilzrwstream_never_returns (P := zeroed) 10 d "a.0.bmp" 5
           (only "a.ris" one_compressed_entry)).
  - lia.
  - reflexivity.
  - vm_compute. lia.
Defined.

Lemma extract_empty_directory_witness :
  let archive := [x08] ++ list_byte_of_string "LMDBML30" ++ [x00; x00; x00; x00] in
  extract (P := zeroed) 1 "a.ris" (only "a.ris" archive) =
    Some (Return tt,
          {| files := {[ "a.ris"%string := archive ]};
             console := ["a.ris"%string] |}).
Proof.
  intros archive.
  apply (extract_empty_directory (P := zeroed) 1 "a.ris" (only "a.ris" archive) []).
  - lia.
  - vm_compute. reflexivity.
Defined.

(** * Further properties *)

(** ** Names of the output files *)

Section OutputNameFacts.
Local Open Scope string_scope.

(** The characters ['0'] to ['9']. *)
Definition is_digit (c : ascii) : bool :=
  ((48 <=? nat_of_ascii c) && (nat_of_ascii c <=? 57))%nat.

Lemma occurs_append c s t : occurs c (s +:+ t) = occurs c s || occurs c t.
Proof.
  induction s as [|a s IH]; simpl; [reflexivity|].
  now rewrite IH, orb_assoc.
Qed.

Lemma occurs_digits c d :
  is_digit c = false -> occurs c (NilEmpty.string_of_uint d) = false.
Proof.
  intros Hc.
  induction d as [|d IH|d IH|d IH|d IH|d IH|d IH|d IH|d IH|d IH|d IH];
    cbn [NilEmpty.string_of_uint occurs];
    [reflexivity|..]; rewrite IH, orb_false_r;
    match goal with
    | |- Ascii.eqb ?a c = false =>
        destruct (Ascii.eqb_spec a c) as [<-|]; [discriminate Hc|reflexivity]
    end.
Qed.

Lemma to_uint_nonnil n : Nat.to_uint n <> Decimal.Nil.
Proof.
  intros Hnil.
  pose proof (DecimalNat.Unsigned.of_to n) as Hn. rewrite Hnil in Hn.
  subst n. discriminate Hnil.
Qed.

(** [%zu] prints digits only. *)
Lemma occurs_format_u c n : is_digit c = false -> occurs c (format_u n) = false.
Proof.
  intros Hc. unfold format_u, NilZero.string_of_uint.
  destruct (Nat.to_uint n) eqn:Hd; try (rewrite <- Hd; now apply occurs_digits).
  exfalso. eapply to_uint_nonnil. eassumption.
Qed.

(** [%zu] prints different numbers differently. *)
Lemma format_u_inj n m : format_u n = format_u m -> n = m.
Proof.
  unfold format_u. intros Heq.
  apply DecimalNat.Unsigned.to_uint_inj.
  pose proof (NilZero.usu (Nat.to_uint n) (to_uint_nonnil n)) as Hn.
  pose proof (NilZero.usu (Nat.to_uint m) (to_uint_nonnil m)) as Hm.
  rewrite Heq in Hn. congruence.
Qed.

Lemma append_cancel_l s t t' : s +:+ t = s +:+ t' -> t = t'.
Proof. induction s as [|a s IH]; simpl; [auto|]. intros [= H]. auto. Qed.

(** Two strings without [c] that are followed by [c] end at the same
    place. *)
Lemma append_cancel_at c s s' t t' :
  occurs c s = false -> occurs c s' = false ->
  s +:+ String c t = s' +:+ String c t' -> s = s' /\ t = t'.
Proof.
  revert s'. induction s as [|a s IH]; intros [|a' s']; simpl.
  - intros _ _ [= ->]. auto.
  - intros _ [Ha _]%orb_false_elim [= -> _]. now rewrite Ascii.eqb_refl in Ha.
  - intros [Ha _]%orb_false_elim _ [= -> _]. now rewrite Ascii.eqb_refl in Ha.
  - intros [_ Hs]%orb_false_elim [_ Hs']%orb_false_elim [= -> Heq].
    destruct (IH _ Hs Hs' Heq) as [-> ->]. auto.
Qed.

(** The name of entry [N] when the archive's name has a ['.']. *)
Lemma derive_output_filename_dotted stem ext N :
  occurs "." ext = false ->
  occurs Ascii.zero stem = false ->
  (Z.of_nat (String.length stem) < 2 ^ 31)%Z ->
  derive_output_filename (stem +:+ "." +:+ ext) N
    = stem +:+ "." +:+ format_u N +:+ ".bmp".
Proof.
  intros Hext Hnul Hlen. unfold derive_output_filename.
  change ("." +:+ ext) with (String "." ext).
  rewrite (find_last_of_last _ _ _ Hext).
  unfold format_precision_s.
  rewrite (int_of_size_t_small _ Hlen).
  destruct (Z.ltb_spec (Z.of_nat (String.length stem)) 0) as [Hneg|_]; [lia|].
  rewrite Nat2Z.id. now rewrite (c_str_prefix _ _ Hnul).
Qed.

Lemma dotted_names_differ stem ext i j :
  occurs "." ext = false ->
  occurs Ascii.zero stem = false ->
  (Z.of_nat (String.length stem) < 2 ^ 31)%Z ->
  derive_output_filename (stem +:+ "." +:+ ext) i
    = derive_output_filename (stem +:+ "." +:+ ext) j ->
  i = j.
Proof.
  intros Hext Hnul Hlen.
  rewrite !derive_output_filename_dotted by assumption.
  intros Heq. apply append_cancel_l in Heq.
  change ("." +:+ ?s) with (String "." s) in Heq. injection Heq as Heq.
  change (".bmp") with (String "." "bmp") in Heq.
  apply append_cancel_at in Heq as [Heq _];
    [now apply format_u_inj|now apply occurs_format_u..].
Qed.

Lemma dotted_name_not_archive stem ext N :
  occurs "." ext = false ->
  occurs Ascii.zero stem = false ->
  (Z.of_nat (String.length stem) < 2 ^ 31)%Z ->
  derive_output_filename (stem +:+ "." +:+ ext) N <> stem +:+ "." +:+ ext.
Proof.
  intros Hext Hnul Hlen.
  rewrite derive_output_filename_dotted by assumption.
  intros Heq. apply append_cancel_l in Heq.
  change ("." +:+ ?s) with (String "." s) in Heq. injection Heq as Heq.
  rewrite <- Heq, occurs_append in Hext.
  apply orb_false_elim in Hext as [_ Hbmp]. discriminate Hbmp.
Qed.

(** Two entries of an archive never share a file: the name determines the
    index. *)
Theorem derive_output_filename_inj (stem ext : string) (i j : nat) :
  occurs "." ext = false ->
  occurs Ascii.zero stem = false ->
  (Z.of_nat (String.length stem) < 2 ^ 31)%Z ->
  derive_output_filename (stem +:+ "." +:+ ext) i
    = derive_output_filename (stem +:+ "." +:+ ext) j ->
  i = j.
Proof. apply dotted_names_differ. Qed.

(** No entry is written over the archive it comes from: the name derived
    for an entry differs from the archive's name. *)
Theorem derive_output_filename_fresh (stem ext name : string) (N : nat) :
  (occurs "." ext = false ->
   occurs Ascii.zero stem = false ->
   (Z.of_nat (String.length stem) < 2 ^ 31)%Z ->
   derive_output_filename (stem +:+ "." +:+ ext) N <> stem +:+ "." +:+ ext) /\
  (occurs "." name = false -> name <> "" ->
   derive_output_filename name N <> name).
Proof.
  split.
  - apply dotted_name_not_archive.
  - intros Hname Hne. unfold derive_output_filename.
    rewrite (find_last_of_absent _ _ Hname). congruence.
Qed.

End OutputNameFacts.

Lemma derive_output_filename_inj_witness :
  derive_output_filename "tiles.v2.ris" 3 = derive_output_filename "tiles.v2.ris" 3
  /\ 3 = 3.
Proof.
  split; [reflexivity|].
  apply (derive_output_filename_inj "tiles.v2" "ris" 3 3);
    [reflexivity|reflexivity|vm_compute; reflexivity|reflexivity].
Defined.

Lemma derive_output_filename_fresh_witness :
  derive_output_filename "tiles.v2.ris" 7 <> "tiles.v2.ris"%string
  /\ derive_output_filename "tiles" 7 <> "tiles"%string.
Proof.
  destruct (derive_output_filename_fresh "tiles.v2" "ris" "tiles" 7) as [Hdot Hnone].
  split.
  - apply Hdot; [reflexivity|reflexivity|vm_compute; reflexivity].
  - apply Hnone; [reflexivity|discriminate].
Defined.

(** ** Integers in the file *)

Section Integers.
Local Open Scope Z_scope.

Lemma u8_range b : 0 <= u8 b < 256.
Proof.
  unfold u8. pose proof (Byte.to_N_bounded b) as Hb. lia.
Qed.

Lemma le_decode_range bs : 0 <= le_decode bs < 256 ^ Z.of_nat (length bs).
Proof.
  induction bs as [|b bs IH]; cbn [le_decode length]; [lia|].
  rewrite Nat2Z.inj_succ, Z.pow_succ_r by lia.
  pose proof (u8_range b). lia.
Qed.

Lemma length_le_encode size value : length (le_encode size value) = size.
Proof.
  revert value. induction size as [|size IH]; intros value; cbn [le_encode length];
    [reflexivity|]. now rewrite IH.
Qed.

Lemma u8_of_N z :
  0 <= z < 256 -> u8 (default x00 (Byte.of_N (Z.to_N z))) = z.
Proof.
  intros Hz. unfold u8.
  destruct (Byte.of_N (Z.to_N z)) as [b|] eqn:Hb.
  - apply Byte.to_of_N in Hb. simpl. rewrite Hb. lia.
  - apply Byte.of_N_None_iff in Hb. lia.
Qed.

Lemma of_N_u8 b : default x00 (Byte.of_N (Z.to_N (u8 b))) = b.
Proof. unfold u8. now rewrite N2Z.id, Byte.of_to_N. Qed.

(** The bytes of an integer, read back, give the integer modulo the
    width. *)
Lemma le_decode_encode size value :
  le_decode (le_encode size value) = value mod 256 ^ Z.of_nat size.
Proof.
  revert value. induction size as [|size IH]; intros value;
    cbn [le_encode le_decode].
  - now rewrite Z.mod_1_r.
  - rewrite IH, u8_of_N by (apply Z.mod_pos_bound; lia).
    rewrite Nat2Z.inj_succ, Z.pow_succ_r by lia.
    rewrite Z.rem_mul_r by lia. reflexivity.
Qed.

Lemma le_encode_decode bs : le_encode (length bs) (le_decode bs) = bs.
Proof.
  induction bs as [|b bs IH]; cbn [le_encode le_decode length]; [reflexivity|].
  pose proof (u8_range b) as Hb.
  replace ((u8 b + 256 * le_decode bs) mod 256) with (u8 b)
    by (apply (Z.mod_unique _ _ (le_decode bs)); [left|]; lia).
  replace ((u8 b + 256 * le_decode bs) / 256) with (le_decode bs)
    by (apply (Z.div_unique _ _ _ (u8 b)); [left|]; lia).
  now rewrite of_N_u8, IH.
Qed.

End Integers.

(** ** Reads from a file *)

Section ReaderFacts.
Context {P : platform}.

(** [ifstream_impl::try_read] for [amount > 0]: the bytes the file still
    holds, at most [amount] of them, go to the buffer. *)
Lemma try_read_ifstream fuel buffer at_ amount s :
  0 < amount ->
  at_ + length (upcoming s amount) <= length buffer ->
  try_read (I := ifstream_impl) fuel at_ amount (s, buffer) =
    Some (Return (length (upcoming s amount)),
          (advance s (length (upcoming s amount)),
           take at_ buffer ++ upcoming s amount
             ++ drop (at_ + length (upcoming s amount)) buffer)).
Proof.
  intros Hpos Hb. unfold try_read, ifstream_istream, ifstream_try_read.
  destruct (decide (0 < amount)) as [_|]; [|lia].
  fold (upcoming s amount). unfold store_bytes.
  destruct (decide (_ <= _)) as [_|]; [reflexivity|contradiction].
Qed.

(** A read that asks for more than the file still holds stores what is
    left, leaves the offset at the end of it and throws [end_of_stream]. *)
Theorem istream_read_ifstream_short (fuel : nat) (buffer : list byte)
    (at_ amount : nat) (s : ifstream_impl) :
  0 < amount ->
  length (fd_bytes s) < fd_offset s + amount ->
  at_ + amount <= length buffer ->
  let rest := drop (fd_offset s) (fd_bytes s) in
  istream_read (S (S fuel)) at_ amount (s, buffer) =
    Some (Throw end_of_stream,
          ({| fd_bytes := fd_bytes s; fd_offset := fd_offset s + length rest |},
           take at_ buffer ++ rest ++ drop (at_ + length rest) buffer)).
Proof.
  intros Hpos Hs Hb rest.
  assert (Hrest : length rest = length (fd_bytes s) - fd_offset s)
    by (unfold rest; now rewrite length_drop).
  assert (Hup : upcoming s amount = rest).
  { unfold upcoming. fold rest. apply take_ge. lia. }
  unfold istream_read.
  destruct amount as [|n]; [lia|].
  cbn [read_loop].
  erewrite bind_return by (apply try_read_ifstream; [lia|rewrite Hup; lia]).
  rewrite Hup, Nat.sub_diag, Nat.add_0_r.
  fold (advance s (length rest)).
  destruct (decide (0 < length rest)) as [Hk|Hk]; [|reflexivity].
  destruct (S n - length rest) as [|r] eqn:Hr; [lia|].
  cbn [read_loop].
  assert (Hnil : upcoming (advance s (length rest)) (S r) = []).
  { unfold upcoming, advance. cbn [fd_bytes fd_offset].
    rewrite drop_ge by lia. apply take_nil. }
  erewrite bind_return.
  2:{ apply try_read_ifstream; [lia|]. rewrite Hnil. cbn [length].
      rewrite !length_app, length_take, length_drop. lia. }
  rewrite Hnil. cbn [length app].
  destruct (decide (0 < 0)) as [|_]; [lia|].
  rewrite advance_0, Nat.add_0_r, take_drop. reflexivity.
Qed.

(** A read of [n + m] bytes is a read of [n] bytes followed by a read of
    [m] bytes into the storage behind them. *)
Theorem istream_read_ifstream_split (fuel : nat) (buffer : list byte)
    (at_ n m : nat) (s : ifstream_impl) :
  fd_offset s + (n + m) <= length (fd_bytes s) ->
  at_ + (n + m) <= length buffer ->
  istream_read (S fuel) at_ (n + m) (s, buffer) =
    (let* _ := istream_read (S fuel) at_ n in
     istream_read (S fuel) (at_ + n) m) (s, buffer).
Proof.
  intros Hs Hb.
  rewrite istream_read_ifstream by assumption.
  erewrite bind_return by (apply istream_read_ifstream; lia).
  assert (Hn : length (upcoming s n) = n) by (rewrite length_upcoming; lia).
  rewrite istream_read_ifstream.
  - rewrite advance_advance, upcoming_add. do 3 f_equal.
    assert (Hx : length (take at_ buffer ++ upcoming s n) = at_ + n)
      by (rewrite length_app, length_take, Hn; lia).
    rewrite (app_assoc (take at_ buffer) (upcoming s n) (drop (at_ + n) buffer)).
    rewrite take_app_length' by (now rewrite Hx).
    rewrite drop_app_ge by lia.
    rewrite Hx, drop_drop, <- !app_assoc.
    replace (at_ + n + (at_ + n + m - (at_ + n))) with (at_ + (n + m)) by lia.
    reflexivity.
  - cbn [advance fd_bytes fd_offset]. lia.
  - rewrite !length_app, length_take, length_drop, Hn. lia.
Qed.

(** [read<uint32_t>()] on a file: a value below [2 ^ 32] from the next four
    bytes, or [end_of_stream] when the file holds fewer. *)
Theorem read_uint32_ifstream_outcome (fuel : nat) (s : ifstream_impl) :
  exists o s',
    read_uint32 (S (S fuel)) s = Some (o, s') /\
    match o with
    | Return value =>
        fd_offset s + 4 <= length (fd_bytes s) /\ s' = advance s 4
        /\ value = le_decode (upcoming s 4) /\ (0 <= value < 2 ^ 32)%Z
    | Throw e => length (fd_bytes s) < fd_offset s + 4 /\ e = end_of_stream
    | Undefined => False
    end.
Proof.
  destruct (le_lt_dec (fd_offset s + 4) (length (fd_bytes s))) as [Hle|Hlt].
  - do 2 eexists. split; [now apply read_uint32_ifstream|].
    repeat split; [assumption|..].
    + apply le_decode_range.
    + pose proof (le_decode_range (upcoming s 4)) as Hr.
      rewrite length_upcoming in Hr.
      replace (Nat.min 4 (length (fd_bytes s) - fd_offset s)) with 4 in Hr by lia.
      exact (proj2 Hr).
  - destruct (read_value_ifstream_eos fuel 4 s ltac:(lia) Hlt) as (s' & Hr & _).
    exists (Throw end_of_stream), s'. split; [|auto].
    unfold read_uint32. now rewrite (bind_throw _ _ _ _ _ Hr).
Qed.

End ReaderFacts.

(** ** The header and the directory *)

Section ArchiveFacts.
Context {P : platform}.

(** The host after [puts s]. *)
Definition printed (h : host) (s : string) : host :=
  {| files := files h; console := console h ++ [s] |}.

(** A file that cannot be opened: [extract] prints its name and throws the
    [system_error] of [ifstream::open]. *)
Theorem extract_missing_file (fuel : nat) (input_filename : string) (h : host) :
  files h !! input_filename = None ->
  extract fuel input_filename h = Some (Throw system_error, printed h input_filename).
Proof.
  intros Hfile. unfold extract.
  erewrite bind_return by reflexivity.
  erewrite bind_throw; [reflexivity|].
  unfold ifstream_open. cbn [files]. now rewrite Hfile.
Qed.

(** A version byte other than 8: [extract] throws ["unknown version: "]
    with the byte in decimal, whatever follows it, and creates no file. *)
Theorem extract_unknown_version (fuel : nat) (input_filename : string)
    (h : host) (version : byte) (rest : list byte) :
  0 < fuel ->
  files h !! input_filename = Some (version :: rest) ->
  u8 version <> 8%Z ->
  extract fuel input_filename h =
    Some (Throw (runtime_error
                   ("unknown version: " +:+ format_u (Z.to_nat (u8 version)))),
          printed h input_filename).
Proof.
  intros Hfuel Hfile Hversion.
  destruct fuel as [|fuel]; [lia|].
  unfold extract.
  erewrite bind_return by reflexivity.
  erewrite bind_return by (unfold ifstream_open; cbn [files]; now rewrite Hfile).
  erewrite bind_return
    by (apply call_return; now apply read_uint8_ifstream).
  cbv beta iota.
  destruct (Z.eqb_spec (u8 version) 8); [contradiction|reflexivity].
Qed.

(** The bytes of a directory: each offset as four bytes, least significant
    first. *)
Definition directory_bytes (offsets : list Z) : list byte :=
  concat (map (le_encode 4) offsets).

Lemma length_directory_bytes offsets :
  length (directory_bytes offsets) = 4 * length offsets.
Proof.
  unfold directory_bytes.
  induction offsets as [|o offsets IH]; cbn [map concat length]; [reflexivity|].
  rewrite length_app, IH, length_le_encode. lia.
Qed.

(** What the file holds from the offset on. *)
Definition ahead (s : ifstream_impl) : list byte :=
  drop (fd_offset s) (fd_bytes s).

Lemma upcoming_ahead s bs rest n :
  ahead s = bs ++ rest -> n = length bs -> upcoming s n = bs.
Proof.
  unfold ahead, upcoming. intros -> ->. apply take_app_length.
Qed.

Lemma ahead_advance s bs rest n :
  ahead s = bs ++ rest -> n = length bs -> ahead (advance s n) = rest.
Proof.
  unfold ahead, advance. cbn [fd_bytes fd_offset]. intros Hs ->.
  rewrite <- drop_drop, Hs. apply drop_app_length.
Qed.

Lemma ahead_length s bs rest :
  ahead s = bs ++ rest -> 0 < length bs ->
  fd_offset s + length bs <= length (fd_bytes s).
Proof.
  unfold ahead. intros Hs Hbs.
  assert (Hlen : length (drop (fd_offset s) (fd_bytes s)) = length (bs ++ rest))
    by now rewrite Hs.
  rewrite length_drop, length_app in Hlen. lia.
Qed.

Lemma read_value_ahead fuel s bs rest :
  ahead s = bs ++ rest -> 0 < length bs ->
  read_value (S fuel) (length bs) s = Some (Return bs, advance s (length bs)).
Proof.
  intros Hs Hbs.
  rewrite read_value_ifstream by (eapply ahead_length; eassumption).
  now rewrite (upcoming_ahead _ _ _ _ Hs eq_refl).
Qed.

Lemma read_uint8_ahead fuel s value rest :
  ahead s = value :: rest ->
  read_uint8 (S fuel) s = Some (Return value, advance s 1).
Proof.
  intros Hs. unfold read_uint8.
  now rewrite (bind_return _ _ _ _ _
                 (read_value_ahead fuel s [value] rest Hs ltac:(cbn; lia))).
Qed.

Lemma read_uint32_ahead fuel s value rest :
  ahead s = le_encode 4 value ++ rest ->
  (0 <= value < 2 ^ 32)%Z ->
  read_uint32 (S fuel) s = Some (Return value, advance s 4).
Proof.
  intros Hs Hvalue. unfold read_uint32.
  rewrite (bind_return _ _ _ _ _
             (read_value_ahead fuel s (le_encode 4 value) rest Hs ltac:(cbn; lia))).
  unfold ret. rewrite le_decode_encode. cbn [length].
  now rewrite Z.mod_small by (change (256 ^ Z.of_nat 4)%Z with (2 ^ 32)%Z; lia).
Qed.

(** An offset as [read<uint32_t>()] can give it. *)
Definition is_uint32 (value : Z) : Prop := (0 <= value < 2 ^ 32)%Z.

(** The first loop of [extract] gives the offsets of the directory, in
    their order. *)
Lemma read_offsets_ahead fuel offsets : forall s rest,
  ahead s = directory_bytes offsets ++ rest ->
  Forall is_uint32 offsets ->
  read_offsets (S fuel) (length offsets) s =
    Some (Return offsets, advance s (4 * length offsets)).
Proof.
  induction offsets as [|offset offsets IH]; intros s rest Hs Hrange.
  - cbn. now rewrite advance_0.
  - apply Forall_cons in Hrange as [Hoffset Hrange].
    unfold directory_bytes in Hs. cbn [map concat] in Hs.
    fold (directory_bytes offsets) in Hs. rewrite <- app_assoc in Hs.
    cbn [length read_offsets].
    rewrite (bind_return _ _ _ _ _ (read_uint32_ahead fuel s offset _ Hs Hoffset)).
    apply ahead_advance with (n := 4) in Hs; [|now rewrite length_le_encode].
    rewrite (bind_return _ _ _ _ _ (IH _ _ Hs Hrange)).
    unfold ret. rewrite advance_advance.
    replace (4 + 4 * length offsets) with (4 * S (length offsets)) by lia.
    reflexivity.
Qed.

(** A directory cut short ends the first loop of [extract] in
    [end_of_stream]. *)
Lemma read_offsets_short fuel count : forall s,
  0 < count ->
  length (fd_bytes s) < fd_offset s + 4 * count ->
  exists s', read_offsets (S (S fuel)) count s = Some (Throw end_of_stream, s').
Proof.
  induction count as [|count IH]; intros s Hcount Hs; [lia|].
  cbn [read_offsets].
  destruct (le_lt_dec (fd_offset s + 4) (length (fd_bytes s))) as [Hle|Hlt].
  - rewrite (bind_return _ _ _ _ _ (read_uint32_ifstream (S fuel) s Hle)).
    destruct (IH (advance s 4)) as [s' Hr];
      [lia|cbn [advance fd_bytes fd_offset]; lia|].
    rewrite (bind_throw _ _ _ _ _ Hr). eauto.
  - destruct (read_value_ifstream_eos fuel 4 s ltac:(lia) Hlt) as (s' & Hr & _).
    exists s'. unfold read_uint32.
    erewrite bind_throw; [reflexivity|].
    now rewrite (bind_throw _ _ _ _ _ Hr).
Qed.

(** The bytes of an archive up to the end of its directory. *)
Definition header_bytes (offsets : list Z) : list byte :=
  x08 :: list_byte_of_string "LMDBML30"
    ++ le_encode 4 (Z.of_nat (length offsets))
    ++ directory_bytes offsets.

Lemma length_header_bytes offsets :
  length (header_bytes offsets) = 13 + 4 * length offsets.
Proof.
  unfold header_bytes. cbn [length].
  rewrite !length_app, length_le_encode, length_directory_bytes.
  change (length (list_byte_of_string "LMDBML30")) with 8. lia.
Qed.

(** [extract] up to its second loop: on an archive that starts with the
    version, the tag, the count and the directory, it goes through the
    entries at the offsets of the directory. *)
Lemma extract_header fuel input_filename h offsets rest :
  files h !! input_filename = Some (header_bytes offsets ++ rest) ->
  is_uint32 (Z.of_nat (length offsets)) ->
  Forall is_uint32 offsets ->
  extract (S fuel) input_filename h =
    extract_entries (S fuel)
      {| fd_bytes := header_bytes offsets ++ rest;
         fd_offset := 13 + 4 * length offsets |}
      input_filename 0 offsets (printed h input_filename).
Proof.
  intros Hfile Hcount Hrange. unfold extract.
  erewrite bind_return by reflexivity.
  erewrite bind_return by (unfold ifstream_open; cbn [files]; now rewrite Hfile).
  set (s0 := {| fd_bytes := header_bytes offsets ++ rest; fd_offset := 0 |}).
  assert (H0 : ahead s0 =
                 [x08] ++ list_byte_of_string "LMDBML30"
                   ++ le_encode 4 (Z.of_nat (length offsets))
                   ++ directory_bytes offsets ++ rest).
  { unfold ahead, s0, header_bytes. cbn [fd_bytes fd_offset drop].
    cbn [app]. now rewrite <- !app_assoc. }
  erewrite bind_return
    by (apply call_return; eapply read_uint8_ahead; exact H0).
  cbv beta iota. change (u8 x08 =? 8)%Z with true. cbv iota.
  apply ahead_advance with (n := 1) in H0; [|reflexivity].
  erewrite bind_return.
  2:{ apply call_return.
      apply (read_value_ahead _ _ (list_byte_of_string "LMDBML30") _ H0).
      cbn. lia. }
  cbv beta iota.
  change (is_bitmap_list (list_byte_of_string "LMDBML30")) with true. cbv iota.
  apply ahead_advance with (n := 8) in H0; [|reflexivity].
  erewrite bind_return
    by (apply call_return; eapply read_uint32_ahead; [exact H0|exact Hcount]).
  cbv beta iota. rewrite Nat2Z.id.
  apply ahead_advance with (n := 4) in H0; [|now rewrite length_le_encode].
  erewrite bind_return
    by (apply call_return; eapply read_offsets_ahead; [exact H0|exact Hrange]).
  cbv beta iota.
  rewrite !advance_advance. unfold advance, s0. cbn [fd_bytes fd_offset].
  replace (0 + (1 + (8 + (4 + 4 * length offsets)))) with (13 + 4 * length offsets)
    by lia.
  reflexivity.
Qed.

Lemma call_throw {St I A} (m : M I A) (obj obj' : I) e (h : St) :
  m obj = Some (Throw e, obj') -> call obj m h = Some (Throw e, h).
Proof. unfold call. now intros ->. Qed.

(** An archive cut anywhere before the end of its directory: [extract]
    throws [end_of_stream] and creates no file.  A cut before the end of the
    count (fewer than 13 bytes) needs nothing more.  A cut inside the
    directory comes after the count was read and the vector of line 318 was
    made for it; the count is then taken to be below [2 ^ 16], a vector of
    at most 256 KiB, since [extract] here has no outcome for an allocation
    that fails ([std::bad_alloc], as a count of [0xffffffff] gives). *)
Theorem extract_truncated_header (fuel : nat) (input_filename : string)
    (h : host) (offsets : list Z) (k : nat) :
  files h !! input_filename = Some (take k (header_bytes offsets)) ->
  k < length (header_bytes offsets) ->
  (13 <= k -> (Z.of_nat (length offsets) < 2 ^ 16)%Z) ->
  extract (S (S fuel)) input_filename h =
    Some (Throw end_of_stream, printed h input_filename).
Proof.
  intros Hfile Hk Hsmall. rewrite length_header_bytes in Hk.
  unfold extract.
  erewrite bind_return by reflexivity.
  erewrite bind_return by (unfold ifstream_open; cbn [files]; now rewrite Hfile).
  set (data := take k (header_bytes offsets)).
  set (s0 := {| fd_bytes := data; fd_offset := 0 |}).
  assert (Hlen : length data = k)
    by (unfold data; rewrite length_take, length_header_bytes; lia).
  (* the version *)
  destruct (le_lt_dec 1 k) as [H1|H1].
  2:{ destruct (read_value_ifstream_eos fuel 1 s0 ltac:(lia)
                  ltac:(cbn [s0 fd_bytes fd_offset]; lia)) as (s' & Hr & _).
      erewrite bind_throw; [reflexivity|].
      eapply call_throw. unfold read_uint8. now rewrite (bind_throw _ _ _ _ _ Hr). }
  assert (H0 : ahead s0 =
                 [x08] ++ take (k - 1)
                   (list_byte_of_string "LMDBML30"
                      ++ le_encode 4 (Z.of_nat (length offsets))
                      ++ directory_bytes offsets)).
  { unfold ahead, s0, data, header_bytes. cbn [fd_bytes fd_offset drop].
    destruct k as [|k']; [lia|]. cbn [take app].
    replace (S k' - 1) with k' by lia. reflexivity. }
  erewrite bind_return
    by (apply call_return; eapply read_uint8_ahead; exact H0).
  cbv beta iota. change (u8 x08 =? 8)%Z with true. cbv iota.
  apply ahead_advance with (n := 1) in H0; [|reflexivity].
  (* the tag *)
  destruct (le_lt_dec 9 k) as [H9|H9].
  2:{ destruct (read_value_ifstream_eos fuel 8 (advance s0 1) ltac:(lia)
                  ltac:(cbn [advance s0 fd_bytes fd_offset]; lia)) as (s' & Hr & _).
      erewrite bind_throw; [reflexivity|].
      eapply call_throw. exact Hr. }
  rewrite take_app_ge in H0 by (cbn; lia).
  change (length (list_byte_of_string "LMDBML30")) with 8 in H0.
  erewrite bind_return.
  2:{ apply call_return.
      apply (read_value_ahead _ _ (list_byte_of_string "LMDBML30") _ H0).
      cbn. lia. }
  cbv beta iota.
  change (is_bitmap_list (list_byte_of_string "LMDBML30")) with true. cbv iota.
  apply ahead_advance with (n := 8) in H0; [|reflexivity].
  (* the count *)
  destruct (le_lt_dec 13 k) as [H13|H13].
  2:{ destruct (read_value_ifstream_eos fuel 4 (advance (advance s0 1) 8) ltac:(lia)
                  ltac:(cbn [advance s0 fd_bytes fd_offset]; lia)) as (s' & Hr & _).
      erewrite bind_throw; [reflexivity|].
      eapply call_throw. unfold read_uint32. now rewrite (bind_throw _ _ _ _ _ Hr). }
  rewrite take_app_ge in H0 by (rewrite length_le_encode; lia).
  rewrite length_le_encode in H0.
  assert (Hcount : is_uint32 (Z.of_nat (length offsets))).
  { specialize (Hsmall H13). unfold is_uint32.
    change (2 ^ 16)%Z with 65536%Z in Hsmall.
    change (2 ^ 32)%Z with 4294967296%Z. lia. }
  erewrite bind_return
    by (apply call_return; eapply read_uint32_ahead; [exact H0|exact Hcount]).
  cbv beta iota. rewrite Nat2Z.id.
  (* the directory *)
  destruct (read_offsets_short fuel (length offsets)
              (advance (advance (advance s0 1) 8) 4)) as [s' Hr].
  { lia. }
  { cbn [advance s0 fd_bytes fd_offset]. lia. }
  erewrite bind_throw; [reflexivity|].
  eapply call_throw. exact Hr.
Qed.

(** ** Archives of plain entries *)

(** At [offset] the archive holds a plain entry with the bytes [payload]:
    the byte 8, the size of the payload as four bytes, the payload. *)
Definition plain_entry_at (data : list byte) (offset : Z) (payload : list byte)
  : Prop :=
  is_uint32 (Z.of_nat (length payload)) /\
  exists rest,
    drop (Z.to_nat offset) data =
      [x08] ++ le_encode 4 (Z.of_nat (length payload)) ++ payload ++ rest.

Lemma extract_entry_plain_at fuel stream input_filename i offset h payload :
  plain_entry_at (fd_bytes stream) offset payload ->
  creatable (derive_output_filename input_filename i) = true ->
  length payload < fuel ->
  extract_entry fuel stream input_filename i offset h =
    Some (Return {| fd_bytes := fd_bytes stream;
                    fd_offset := Z.to_nat offset + (5 + length payload) |},
          {| files := <[derive_output_filename input_filename i := payload]> (files h);
             console := console h |}).
Proof.
  intros [Hsize [rest Hentry]] Hcreate Hfuel.
  destruct fuel as [|fuel]; [lia|].
  unfold extract_entry.
  erewrite bind_return by (apply call_return; reflexivity).
  cbv beta iota.
  set (s0 := {| fd_bytes := fd_bytes stream; fd_offset := Z.to_nat offset |}).
  assert (H0 : ahead s0 =
                 [x08] ++ le_encode 4 (Z.of_nat (length payload)) ++ payload ++ rest)
    by exact Hentry.
  erewrite bind_return
    by (apply call_return; eapply read_uint8_ahead; exact H0).
  cbv beta iota. change (u8 x08 =? 8)%Z with true. cbv iota.
  apply ahead_advance with (n := 1) in H0; [|reflexivity].
  unfold export_plain_bitmap.
  erewrite bind_return
    by (apply call_return; eapply read_uint32_ahead; [exact H0|exact Hsize]).
  cbv beta iota. rewrite Nat2Z.id.
  apply ahead_advance with (n := 4) in H0; [|now rewrite length_le_encode].
  unfold export_bitmap.
  erewrite bind_return by (unfold ofstream_create; rewrite Hcreate; reflexivity).
  destruct (decide (0 < length payload)) as [Hpos|Hzero].
  - rewrite (export_loop_ifstream _ _ _ _ _ _ []).
    + rewrite (upcoming_ahead _ _ _ _ H0 eq_refl).
      cbn [files console app]. rewrite insert_insert_eq, !advance_advance.
      unfold advance, s0. cbn [fd_bytes fd_offset].
      replace (1 + (4 + length payload)) with (5 + length payload) by lia.
      reflexivity.
    + eapply ahead_length; [exact H0|exact Hpos].
    + now rewrite length_map, length_seq.
    + cbn [files]. apply lookup_insert_eq.
    + lia.
  - destruct payload as [|b payload]; [|cbn [length] in Hzero; lia].
    cbn [length export_loop]. unfold ret. cbn [files console].
    rewrite !advance_advance. unfold advance, s0. cbn [fd_bytes fd_offset].
    reflexivity.
Qed.

(** The files after the payloads were written as entries [i], [i + 1],
    ... *)
Fixpoint written (input_filename : string) (i : nat) (payloads : list (list byte))
    (fs : gmap string (list byte)) : gmap string (list byte) :=
  match payloads with
  | [] => fs
  | payload :: payloads' =>
      written input_filename (S i) payloads'
        (<[derive_output_filename input_filename i := payload]> fs)
  end.

Lemma extract_entries_plain fuel input_filename offsets payloads :
  forall stream i h,
  Forall2 (plain_entry_at (fd_bytes stream)) offsets payloads ->
  (forall j, j < length payloads ->
             creatable (derive_output_filename input_filename (i + j)) = true) ->
  Forall (fun payload => length payload < fuel) payloads ->
  extract_entries fuel stream input_filename i offsets h =
    Some (Return tt,
          {| files := written input_filename i payloads (files h);
             console := console h |}).
Proof.
  intros stream i h Hentries. revert i h.
  remember (fd_bytes stream) as data eqn:Hdata. revert stream Hdata.
  induction Hentries as [|offset payload offsets payloads Hentry _ IH];
    intros stream Hdata i h Hcreate Hfuel.
  - cbn. now destruct h.
  - apply Forall_cons in Hfuel as [Hfuel1 Hfuel].
    cbn [extract_entries written].
    assert (Hcreate0 : creatable (derive_output_filename input_filename i) = true).
    { specialize (Hcreate 0 (Nat.lt_0_succ _)). now rewrite Nat.add_0_r in Hcreate. }
    assert (Hentry' : plain_entry_at (fd_bytes stream) offset payload)
      by now rewrite <- Hdata.
    rewrite (bind_return _ _ _ _ _
               (extract_entry_plain_at fuel stream input_filename i offset h payload
                  Hentry' Hcreate0 Hfuel1)).
    rewrite IH; [reflexivity|exact Hdata| |exact Hfuel].
    intros j Hj. specialize (Hcreate (S j) (proj1 (Nat.succ_lt_mono _ _) Hj)).
    now replace (S i + j) with (i + S j) by lia.
Qed.

Lemma written_other input_filename payloads : forall i fs f,
  (forall j, j < length payloads -> derive_output_filename input_filename (i + j) <> f) ->
  written input_filename i payloads fs !! f = fs !! f.
Proof.
  induction payloads as [|payload payloads IH]; intros i fs f Hf; [reflexivity|].
  cbn [written]. rewrite IH.
  - apply lookup_insert_ne. specialize (Hf 0 (Nat.lt_0_succ _)).
    now rewrite Nat.add_0_r in Hf.
  - intros j Hj. specialize (Hf (S j) (proj1 (Nat.succ_lt_mono _ _) Hj)).
    now replace (S i + j) with (i + S j) by lia.
Qed.

Lemma written_entry input_filename payloads : forall i fs j payload,
  (forall a b, derive_output_filename input_filename a
               = derive_output_filename input_filename b -> a = b) ->
  payloads !! j = Some payload ->
  written input_filename i payloads fs
    !! derive_output_filename input_filename (i + j) = Some payload.
Proof.
  induction payloads as [|p payloads IH]; intros i fs j payload Hinj Hj;
    [discriminate|].
  cbn [written]. destruct j as [|j].
  - injection Hj as ->. rewrite Nat.add_0_r, written_other.
    + apply lookup_insert_eq.
    + intros k _ Heq. apply Hinj in Heq. lia.
  - replace (i + S j) with (S i + j) by lia. now apply IH.
Qed.

(** An archive whose entries are all plain is extracted completely:
    [extract] returns, prints the archive's name, entry [j] is in the file
    named after [j] with exactly its payload, and the archive and every
    other file are as before. *)
Theorem extract_plain_archive (fuel : nat) (stem ext : string) (h : host)
    (offsets : list Z) (payloads : list (list byte)) (rest : list byte) :
  occurs "." ext = false ->
  occurs Ascii.zero stem = false ->
  (Z.of_nat (String.length stem) < 2 ^ 31)%Z ->
  files h !! (stem +:+ "." +:+ ext)%string = Some (header_bytes offsets ++ rest) ->
  is_uint32 (Z.of_nat (length offsets)) ->
  Forall is_uint32 offsets ->
  Forall2 (plain_entry_at (header_bytes offsets ++ rest)) offsets payloads ->
  (forall j, j < length payloads ->
     creatable (derive_output_filename (stem +:+ "." +:+ ext)%string j) = true) ->
  Forall (fun payload => length payload <= fuel) payloads ->
  exists h',
    extract (S fuel) (stem +:+ "." +:+ ext)%string h = Some (Return tt, h') /\
    console h' = console h ++ [(stem +:+ "." +:+ ext)%string] /\
    (forall j payload, payloads !! j = Some payload ->
       files h' !! derive_output_filename (stem +:+ "." +:+ ext)%string j
         = Some payload) /\
    files h' !! (stem +:+ "." +:+ ext)%string = Some (header_bytes offsets ++ rest) /\
    (forall f,
       (forall j, j < length payloads ->
          derive_output_filename (stem +:+ "." +:+ ext)%string j <> f) ->
       files h' !! f = files h !! f).
Proof.
  intros Hext Hnul Hlen Hfile Hcount Hoffsets Hentries Hcreate Hfuel.
  set (input_filename := (stem +:+ "." +:+ ext)%string) in *.
  eexists. split.
  { rewrite (extract_header _ _ _ _ _ Hfile Hcount Hoffsets).
    apply extract_entries_plain with (payloads := payloads).
    - exact Hentries.
    - exact Hcreate.
    - eapply Forall_impl; [exact Hfuel|]. cbv beta. lia. }
  cbn [console files printed]. split; [reflexivity|]. split; [|split].
  - intros j payload Hj.
    apply (written_entry input_filename payloads 0 (files h) j payload); [|exact Hj].
    intros a b. now apply dotted_names_differ.
  - rewrite written_other; [exact Hfile|].
    intros j _. now apply dotted_name_not_archive.
  - intros f Hf. now apply written_other.
Qed.

(** ** Entries cut short *)

(** The copy loop on a file that holds fewer than [remaining] bytes: the
    whole blocks of [buffer_size] bytes are copied, the read of the next
    block throws and what it had read is not written. *)
Lemma export_loop_ifstream_short fuel : forall s output buffer remaining h written,
  available s < remaining ->
  length buffer = buffer_size ->
  files h !! output = Some written ->
  remaining + 2 <= fuel ->
  export_loop fuel s output buffer remaining h =
    Some (Throw end_of_stream,
          {| files := <[output := written
                          ++ upcoming s (buffer_size * (available s / buffer_size))]>
                        (files h);
             console := console h |}).
Proof.
  induction fuel as [|fuel IH]; intros s output buffer remaining h written Hs Hb Hw Hf;
    [lia|].
  destruct remaining as [|r]; [lia|].
  destruct fuel as [|[|fuel']]; [lia|lia|].
  remember (S r) as remaining eqn:Hrem.
  remember (Nat.min remaining buffer_size) as len eqn:Hlendef.
  assert (Hlen : len <= remaining /\ len <= buffer_size /\ 0 < len)
    by (unfold buffer_size in *; lia).
  replace (export_loop (S (S (S fuel'))) s output buffer remaining h) with
    ((let* (_, (input', buffer')) :=
        call (s, buffer) (istream_read (S (S fuel')) 0 len) in
      let* _ := ostream_write (S (S fuel')) output buffer' len in
      export_loop (S (S fuel')) input' output buffer' (remaining - len)) h)
    by (rewrite Hlendef, Hrem; reflexivity).
  unfold available in *.
  destruct (le_lt_dec buffer_size (length (fd_bytes s) - fd_offset s)) as [Hblock|Hblock].
  - assert (Hlen' : len = buffer_size) by lia.
    erewrite bind_return
      by (apply call_return; apply istream_read_ifstream; lia).
    cbv beta iota.
    assert (Hup : length (upcoming s len) = len) by (rewrite length_upcoming; lia).
    set (buffer' := take 0 buffer ++ upcoming s len ++ drop (0 + len) buffer).
    assert (Hb' : length buffer' = buffer_size).
    { unfold buffer'. rewrite !length_app, take_0, length_drop, Hup. simpl. lia. }
    erewrite bind_return
      by (apply ostream_write_appends; [lia|eassumption]).
    rewrite (IH _ _ _ _ _ (written ++ take len buffer'));
      cbn [files console advance fd_bytes fd_offset].
    + rewrite insert_insert_eq. do 3 f_equal.
      replace (take len buffer') with (upcoming s len)
        by (unfold buffer'; rewrite take_0; simpl; now rewrite take_app_length').
      rewrite <- app_assoc. f_equal.
      unfold available. cbn [advance fd_bytes fd_offset].
      replace (length (fd_bytes s) - fd_offset s)
        with ((length (fd_bytes s) - (fd_offset s + len)) + 1 * buffer_size) at 1
        by lia.
      rewrite Nat.div_add by (unfold buffer_size; lia).
      replace (buffer_size * ((length (fd_bytes s) - (fd_offset s + len)) / buffer_size + 1))
        with (len + buffer_size * ((length (fd_bytes s) - (fd_offset s + len)) / buffer_size))
        by lia.
      now rewrite upcoming_add.
    + unfold available. cbn [advance fd_bytes fd_offset]. lia.
    + assumption.
    + apply lookup_insert_eq.
    + lia.
  - destruct (istream_read_ifstream_eos fuel' buffer 0 len s)
      as (s' & buffer' & Hr & _); [lia|lia|lia|].
    erewrite bind_throw by (eapply call_throw; exact Hr).
    rewrite Nat.div_small by assumption.
    rewrite Nat.mul_0_r. unfold upcoming. rewrite take_0, app_nil_r.
    rewrite insert_id by assumption. now destruct h.
Qed.

(** A plain entry whose size field promises more than the archive holds:
    [export_bitmap] throws [end_of_stream], and the output file is left
    with the whole blocks of 4096 bytes only; the bytes of the last,
    partial block are dropped. *)
Theorem export_bitmap_ifstream_short (fuel : nat) (s : ifstream_impl)
    (filename : string) (amount : nat) (h : host) :
  available s < amount ->
  creatable filename = true ->
  amount + 2 <= fuel ->
  export_bitmap fuel s filename amount h =
    Some (Throw end_of_stream,
          {| files := <[filename :=
                          upcoming s (buffer_size * (available s / buffer_size))]>
                        (files h);
             console := console h |}).
Proof.
  intros Hs Hcreate Hfuel. unfold export_bitmap.
  erewrite bind_return by (unfold ofstream_create; rewrite Hcreate; reflexivity).
  rewrite (export_loop_ifstream_short _ _ _ _ _ _ []).
  - cbn [files console app]. now rewrite insert_insert_eq.
  - exact Hs.
  - now rewrite length_map, length_seq.
  - cbn [files]. apply lookup_insert_eq.
  - exact Hfuel.
Qed.

(** ** Compressed entries *)

(** A compressed entry, whatever its data: the entry's file is created and
    stays empty.  [extract]'s loop body returns only when the decoded size
    is 0; with any other size it throws [end_of_stream] or reads out of
    bounds. *)
Theorem extract_entry_compressed (fuel : nat) (stream : ifstream_impl)
    (input_filename : string) (i : nat) (offset : Z) (h : host)
    (size1 size2 : Z) (unknown : byte) (rest : list byte) :
  drop (Z.to_nat offset) (fd_bytes stream) =
    [x09] ++ le_encode 4 size1 ++ le_encode 4 size2 ++ [unknown] ++ rest ->
  is_uint32 size1 ->
  is_uint32 size2 ->
  creatable (derive_output_filename input_filename i) = true ->
  length rest + 5 <= fuel ->
  exists o,
    extract_entry fuel stream input_filename i offset h =
      Some (o, {| files := <[derive_output_filename input_filename i := []]> (files h);
                  console := console h |})
    /\ match o with
       | Return stream' =>
           size1 = 0%Z
           /\ stream' = {| fd_bytes := fd_bytes stream;
                           fd_offset := Z.to_nat offset + 10 |}
       | Throw e => (0 < size1)%Z /\ e = end_of_stream
       | Undefined => (0 < size1)%Z
       end.
Proof.
  intros Hentry Hsize1 Hsize2 Hcreate Hfuel.
  destruct fuel as [|fuel]; [lia|].
  unfold extract_entry.
  erewrite bind_return by (apply call_return; reflexivity).
  cbv beta iota.
  set (s0 := {| fd_bytes := fd_bytes stream; fd_offset := Z.to_nat offset |}).
  assert (H0 : ahead s0 =
                 [x09] ++ le_encode 4 size1 ++ le_encode 4 size2 ++ [unknown] ++ rest)
    by exact Hentry.
  erewrite bind_return
    by (apply call_return; eapply read_uint8_ahead; exact H0).
  cbv beta iota.
  change (u8 x09 =? 8)%Z with false. change (u8 x09 =? 9)%Z with true. cbv iota.
  apply ahead_advance with (n := 1) in H0; [|reflexivity].
  unfold export_compressed_bitmap.
  erewrite bind_return
    by (apply call_return; eapply read_uint32_ahead; [exact H0|exact Hsize1]).
  cbv beta iota.
  apply ahead_advance with (n := 4) in H0; [|now rewrite length_le_encode].
  erewrite bind_return
    by (apply call_return; eapply read_uint32_ahead; [exact H0|exact Hsize2]).
  cbv beta iota.
  apply ahead_advance with (n := 4) in H0; [|now rewrite length_le_encode].
  erewrite bind_return
    by (apply call_return; eapply read_uint8_ahead; exact H0).
  cbv beta iota.
  apply ahead_advance with (n := 1) in H0; [|reflexivity].
  rewrite !advance_advance in *. cbn [Nat.add] in *.
  destruct (Z.to_nat size1) as [|n] eqn:Hn.
  - eexists. split.
    + unfold export_bitmap.
      erewrite bind_return by (unfold ofstream_create; rewrite Hcreate; reflexivity).
      cbn [export_loop]. unfold ret. cbn [m_stream wrap files console]. reflexivity.
    + unfold is_uint32 in Hsize1. split; [lia|].
      unfold advance, s0. cbn [fd_bytes fd_offset]. reflexivity.
  - destruct (export_bitmap_over_decoder (S fuel) (wrap (advance s0 10))
                (derive_output_filename input_filename i) (S n) h)
      as (o & Hrun & Ho); [lia|exact Hcreate| |].
    + cbn [m_stream wrap]. unfold available.
      assert (Hlen : length (ahead (advance s0 10)) = length rest) by now rewrite H0.
      unfold ahead in Hlen. rewrite length_drop in Hlen. lia.
    + destruct Ho as [-> | ->].
      * rewrite (bind_throw _ _ _ _ _ Hrun). eexists. split; [reflexivity|].
        split; [lia|reflexivity].
      * rewrite (bind_undefined _ _ _ _ Hrun). eexists. split; [reflexivity|].
        cbv iota. lia.
Qed.

(** ** Entries that cannot be reached or written *)

(** An offset at or past the end of the archive: the seek succeeds, the
    read of the entry's type throws [end_of_stream], no file is touched. *)
Theorem extract_entry_past_end (fuel : nat) (stream : ifstream_impl)
    (input_filename : string) (i : nat) (offset : Z) (h : host) :
  length (fd_bytes stream) <= Z.to_nat offset ->
  extract_entry (S (S fuel)) stream input_filename i offset h =
    Some (Throw end_of_stream, h).
Proof.
  intros Hpast. unfold extract_entry.
  erewrite bind_return by (apply call_return; reflexivity).
  cbv beta iota.
  set (s0 := {| fd_bytes := fd_bytes stream; fd_offset := Z.to_nat offset |}).
  destruct (read_value_ifstream_eos fuel 1 s0 ltac:(lia)
              ltac:(cbn [s0 fd_bytes fd_offset]; lia)) as (s' & Hr & _).
  erewrite bind_throw; [reflexivity|].
  eapply call_throw. unfold read_uint8. now rewrite (bind_throw _ _ _ _ _ Hr).
Qed.

(** An archive whose name has no dot: the name derived for an entry is the
    empty string, which cannot be created; a plain entry is read up to its
    size and then [std::system_error] is thrown. *)
Theorem extract_entry_plain_no_dot (fuel : nat) (stream : ifstream_impl)
    (input_filename : string) (i : nat) (offset : Z) (h : host)
    (payload : list byte) :
  occurs "." input_filename = false ->
  creatable "" = false ->
  plain_entry_at (fd_bytes stream) offset payload ->
  extract_entry (S fuel) stream input_filename i offset h =
    Some (Throw system_error, h).
Proof.
  intros Hdot Hcreate [Hsize [rest Hentry]].
  unfold extract_entry.
  erewrite bind_return by (apply call_return; reflexivity).
  cbv beta iota.
  set (s0 := {| fd_bytes := fd_bytes stream; fd_offset := Z.to_nat offset |}).
  assert (H0 : ahead s0 =
                 [x08] ++ le_encode 4 (Z.of_nat (length payload)) ++ payload ++ rest)
    by exact Hentry.
  erewrite bind_return
    by (apply call_return; eapply read_uint8_ahead; exact H0).
  cbv beta iota. change (u8 x08 =? 8)%Z with true. cbv iota.
  apply ahead_advance with (n := 1) in H0; [|reflexivity].
  unfold export_plain_bitmap.
  erewrite bind_return
    by (apply call_return; eapply read_uint32_ahead; [exact H0|exact Hsize]).
  cbv beta iota.
  unfold derive_output_filename. rewrite (find_last_of_absent _ _ Hdot).
  unfold export_bitmap.
  erewrite bind_throw; [reflexivity|].
  unfold ofstream_create. change EmptyString with ""%string. now rewrite Hcreate.
Qed.

End ArchiveFacts.

(** ** What the error for an unknown type tells *)

(** What C9 asks of the exception, on the runs of [extract]: that the
    failing entry, its index or its offset, can be read off it.  The archive
    is a file with a header and a directory, entry [i] of the directory is
    at [offset], the entries before it were extracted, the byte at [offset]
    is neither 8 nor 9, and [extract] throws [e]. *)
Definition unknown_type_error_names_entry {P : platform} : Prop :=
  exists entry_of : exception -> nat,
  forall fuel input_filename h offsets rest i offset stream' h1 type e h',
    files h !! input_filename = Some (header_bytes offsets ++ rest) ->
    is_uint32 (Z.of_nat (length offsets)) ->
    Forall is_uint32 offsets ->
    offsets !! i = Some offset ->
    extract_through fuel
      {| fd_bytes := header_bytes offsets ++ rest;
         fd_offset := 13 + 4 * length offsets |}
      input_filename 0 (take i offsets) (printed h input_filename)
      = Some (Return stream', h1) ->
    (header_bytes offsets ++ rest) !! Z.to_nat offset = Some type ->
    u8 type <> 8%Z ->
    u8 type <> 9%Z ->
    extract fuel input_filename h = Some (Throw e, h') ->
    entry_of e = i \/ entry_of e = Z.to_nat offset.

(** ** The decoder's window *)

Section DecoderFacts.
Context {P : platform}.

(** The window has its 4096 bytes and the index points into it. *)
Definition window_ok {I} (d : ilzrwstream_impl I) : Prop :=
  length (m_window d) = Z.to_nat window_size
  /\ (0 <= m_window_index d < window_size)%Z.

Lemma wrap_window_ok {I} (stream : I) : window_ok (wrap stream).
Proof.
  unfold window_ok, wrap. cbn [m_window m_window_index].
  rewrite length_map, length_seq. unfold window_size. lia.
Qed.

Lemma same_window_ok {I} (d d' : ilzrwstream_impl I) :
  same_window d d' -> window_ok d -> window_ok d'.
Proof. unfold window_ok. now intros [-> ->]. Qed.

Lemma read_control_bits_same_window {I} `{istream I} fuel
    (d d' : ilzrwstream_impl I) o :
  read_control_bits fuel d = Some (o, d') -> same_window d d'.
Proof.
  unfold read_control_bits.
  destruct (istream_read _ _ _ _) as [[o1 [s1 bytes]]|]; [|discriminate].
  intros [= <- <-]. now split.
Qed.

Lemma refill_control_same_window {I} `{istream I} fuel
    (d d' : ilzrwstream_impl I) o :
  refill_control fuel d = Some (o, d') -> same_window d d'.
Proof.
  unfold refill_control. rewrite (bind_return get _ d d d eq_refl).
  destruct (m_control_remaining d =? 0)%Z.
  - intros Hrun.
    apply bind_inv in Hrun as [([] & d1 & Hread & Hput)|[(e & Hread & _)|(Hread & _)]];
      apply read_control_bits_same_window in Hread as [Hw Hi]; [|now split..].
    rewrite (bind_return get _ d1 d1 d1 eq_refl) in Hput.
    injection Hput as _ <-. now split.
  - intros [= _ <-]. now split.
Qed.

Lemma window_push_ok {I} (value : byte) (d d' : ilzrwstream_impl I) o :
  window_push value d = Some (o, d') -> window_ok d -> window_ok d'.
Proof.
  unfold window_push. rewrite (bind_return get _ d d d eq_refl).
  intros [= _ <-] [Hlen Hidx]. unfold window_ok. cbn [m_window m_window_index].
  rewrite length_insert. split; [exact Hlen|].
  apply Z.mod_pos_bound. unfold window_size. lia.
Qed.

Lemma lzrw_token_window_ok {I} `{istream I} fuel dst
    (d d' : ilzrwstream_impl I) buffer buffer' (o : outcome unit) :
  lzrw_token fuel dst (d, buffer) = Some (o, (d', buffer')) ->
  window_ok d -> window_ok d'.
Proof.
  unfold lzrw_token. intros Hrun Hok.
  apply bind_inv in Hrun as [([] & [d1 b1] & Hrefill & Hrun)|Hstop].
  2:{ destruct Hstop as [(e & Hrefill & _)|(Hrefill & _)];
        apply on_decoder_inv in Hrefill as [Hrefill _];
        apply refill_control_same_window in Hrefill;
        now apply (same_window_ok d). }
  apply on_decoder_inv in Hrefill as [Hrefill ->].
  apply refill_control_same_window in Hrefill.
  apply (same_window_ok _ _ Hrefill) in Hok. clear Hrefill d.
  rewrite (bind_return _ _ _ _ _ (on_decoder_run get d1 d1 buffer _ eq_refl)) in Hrun.
  destruct (negb _).
  - apply bind_inv in Hrun as [(tmp & [d2 b2] & Hread & Hrest)|Hstop].
    + apply on_decoder_inv in Hread as [[s2 ->]%on_stream_inv ->].
      destruct (backref_loop_frame (backref_ofs tmp) (Z.to_nat (backref_len tmp))
                  dst 0%Z (with_stream d1 s2) buffer) as (o1 & b1 & Hloop & _).
      rewrite Hloop in Hrest. injection Hrest as _ <- _. exact Hok.
    + destruct Hstop as [(e & Hread & _)|(Hread & _)];
        apply on_decoder_inv in Hread as [[s2 ->]%on_stream_inv _]; exact Hok.
  - apply bind_inv in Hrun as [(value & [d2 b2] & Hread & Hrest)|Hstop].
    + apply on_decoder_inv in Hread as [[s2 ->]%on_stream_inv ->].
      unfold bind, store_at in Hrest.
      destruct (store_bytes buffer dst [value]).
      * apply on_decoder_inv in Hrest as [Hpush _].
        now apply (window_push_ok value _ _ _ Hpush).
      * injection Hrest as _ <- _. exact Hok.
    + destruct Hstop as [(e & Hread & _)|(Hread & _)];
        apply on_decoder_inv in Hread as [[s2 ->]%on_stream_inv _]; exact Hok.
Qed.

(** The index never leaves the window: a call of [try_read] on a decoder
    whose window has its 4096 bytes and whose index is below 4096 (the
    constructor makes it so, [wrap_window_ok]) keeps both, over any source
    and however the call ends.  The store [m_window[m_window_index] = value]
    is always inside the array. *)
Theorem ilzrwstream_try_read_window_ok {I} `{istream I}
    (fuel at_ amount : nat) (d d' : ilzrwstream_impl I)
    (buffer buffer' : list byte) (o : outcome nat) :
  window_ok d ->
  ilzrwstream_try_read fuel at_ amount (d, buffer) = Some (o, (d', buffer')) ->
  window_ok d'.
Proof.
  unfold ilzrwstream_try_read. generalize amount at 2. intros remaining.
  revert d buffer. induction fuel as [|fuel IH]; intros d buffer Hok.
  - destruct remaining; cbn [lzrw_loop]; [|discriminate].
    now intros [= _ <- _].
  - destruct remaining as [|n]; cbn [lzrw_loop]; [now intros [= _ <- _]|].
    intros Hrun.
    apply bind_inv in Hrun as [([] & [d1 b1] & Htoken & Hrest)|Hstop].
    + apply lzrw_token_window_ok in Htoken; [|exact Hok].
      exact (IH _ _ Htoken Hrest).
    + destruct Hstop as [(e & Htoken & _)|(Htoken & _)];
        now apply lzrw_token_window_ok in Htoken.
Qed.

(** ** What a token stores *)

Lemma store_bytes_one buffer dst value :
  dst < length buffer ->
  store_bytes buffer dst [value] = Some (<[dst := value]> buffer).
Proof.
  intros Hdst. unfold store_bytes. cbn [length].
  destruct (decide (dst + 1 <= length buffer)) as [_|]; [|lia].
  rewrite insert_take_drop by assumption.
  now replace (dst + 1) with (S dst) by lia.
Qed.

(** A literal: with bits left in the control word and its lowest bit clear,
    the token takes one byte from the file, stores it at [dst] and in the
    window at the index, and steps the index modulo 4096. *)
Theorem lzrw_token_literal (fuel dst : nat)
    (d : ilzrwstream_impl ifstream_impl) (buffer : list byte)
    (value : byte) (rest : list byte) :
  m_control_remaining d <> 0%Z ->
  Z.land (m_control_bits d) 1 = 0%Z ->
  ahead (m_stream d) = value :: rest ->
  dst < length buffer ->
  lzrw_token (S fuel) dst (d, buffer) =
    Some (Return tt,
          ({| m_stream := advance (m_stream d) 1;
              m_window := <[Z.to_nat (m_window_index d) := value]> (m_window d);
              m_window_index := ((m_window_index d + 1) mod window_size)%Z;
              m_control_bits := m_control_bits d;
              m_control_remaining := m_control_remaining d |},
           <[dst := value]> buffer)).
Proof.
  intros Hnz Hbit Hahead Hdst. unfold lzrw_token.
  assert (Hrefill : refill_control (S fuel) d = Some (Return tt, d)).
  { unfold refill_control. rewrite (bind_return get _ d d d eq_refl).
    now destruct (Z.eqb_spec (m_control_remaining d) 0). }
  rewrite (bind_return _ _ _ _ _ (on_decoder_run _ _ _ buffer _ Hrefill)).
  rewrite (bind_return _ _ _ _ _ (on_decoder_run get d d buffer _ eq_refl)).
  rewrite Hbit. cbn [Z.eqb negb].
  rewrite (bind_return _ _ _ _ _
             (on_decoder_run _ _ _ buffer _
                (on_stream_return _ d _ _ (read_uint8_ahead fuel _ _ _ Hahead)))).
  unfold bind at 1, store_at. rewrite (store_bytes_one _ _ _ Hdst).
  reflexivity.
Qed.

(** The place in the window where the copy of a back-reference starts. *)
Definition backref_base {I} (d : ilzrwstream_impl I) (ofs : Z) : Z :=
  backref_index (m_window_index d) ofs 0.

Lemma backref_index_base {I} (d : ilzrwstream_impl I) ofs i :
  backref_index (m_window_index d) ofs i = (backref_base d ofs + i)%Z.
Proof. unfold backref_base, backref_index. lia. Qed.

Lemma backref_base_range {I} (d : ilzrwstream_impl I) ofs :
  (0 <= backref_base d ofs < window_size)%Z.
Proof.
  unfold backref_base, backref_index. rewrite Z.add_0_r.
  apply Z.mod_pos_bound. unfold window_size. lia.
Qed.

(** The copy loop inside the window: every iteration stores at [dst], so
    the byte that stays is the last one read. *)
Lemma backref_loop_inside {I} ofs dst : forall todo i (d : ilzrwstream_impl I) buffer,
  length (m_window d) = Z.to_nat window_size ->
  dst < length buffer ->
  (0 <= i)%Z ->
  (backref_base d ofs + i + Z.of_nat (S todo) <= window_size)%Z ->
  exists value,
    m_window d !! Z.to_nat (backref_base d ofs + i + Z.of_nat todo) = Some value
    /\ backref_loop ofs i (S todo) dst (d, buffer)
       = Some (Return tt, (d, <[dst := value]> buffer)).
Proof.
  induction todo as [|todo IH]; intros i d buffer Hlen Hdst Hi Hin;
    pose proof (backref_base_range d ofs) as Hbase.
  - destruct (lookup_lt_is_Some_2 (m_window d) (Z.to_nat (backref_base d ofs + i)))
      as [value Hvalue]; [lia|].
    exists value. rewrite Z.add_0_r. split; [exact Hvalue|].
    cbn [backref_loop].
    rewrite (bind_return _ _ _ _ _ (on_decoder_run get d d buffer _ eq_refl)).
    rewrite backref_index_base, Hvalue.
    unfold bind, store_at. now rewrite (store_bytes_one _ _ _ Hdst).
  - destruct (lookup_lt_is_Some_2 (m_window d) (Z.to_nat (backref_base d ofs + i)))
      as [first Hfirst]; [lia|].
    destruct (IH (i + 1)%Z d (<[dst := first]> buffer) Hlen
                ltac:(now rewrite length_insert) ltac:(lia) ltac:(lia))
      as (value & Hvalue & Hrun).
    exists value. split.
    + rewrite <- Hvalue. do 2 f_equal. lia.
    + remember (S todo) as todo' eqn:Htodo. cbn [backref_loop].
      rewrite (bind_return _ _ _ _ _ (on_decoder_run get d d buffer _ eq_refl)).
      rewrite backref_index_base, Hfirst.
      unfold bind at 1, store_at. rewrite (store_bytes_one _ _ _ Hdst).
      rewrite Hrun. now rewrite list_insert_insert_eq.
Qed.

(** The copy loop that leaves the window: it reads [m_window[4096]]. *)
Lemma backref_loop_outside {I} ofs dst : forall todo i (d : ilzrwstream_impl I) buffer,
  length (m_window d) = Z.to_nat window_size ->
  dst < length buffer ->
  (0 <= i)%Z ->
  (backref_base d ofs + i <= window_size)%Z ->
  (window_size < backref_base d ofs + i + Z.of_nat todo)%Z ->
  exists buffer',
    backref_loop ofs i todo dst (d, buffer) = Some (Undefined, (d, buffer')).
Proof.
  induction todo as [|todo IH]; intros i d buffer Hlen Hdst Hi Hstart Hout;
    pose proof (backref_base_range d ofs) as Hbase; [lia|].
  cbn [backref_loop].
  rewrite (bind_return _ _ _ _ _ (on_decoder_run get d d buffer _ eq_refl)).
  rewrite backref_index_base.
  destruct (m_window d !! Z.to_nat (backref_base d ofs + i)) as [first|] eqn:Hfirst.
  - apply lookup_lt_Some in Hfirst.
    unfold bind at 1, store_at. rewrite (store_bytes_one _ _ _ Hdst).
    apply IH; [exact Hlen|now rewrite length_insert|lia|lia|lia].
  - eauto.
Qed.

(** A back-reference: with bits left in the control word and its lowest
    bit set, the token takes a descriptor of two bytes from the file.  When
    the [len] bytes from the start of the copy lie inside the window, the
    token returns and the byte at [dst] is the last of them, one byte for
    the whole run; when they cross the end of the window, the token reads
    outside the array. *)
Theorem lzrw_token_backref (fuel dst : nat)
    (d : ilzrwstream_impl ifstream_impl) (buffer : list byte)
    (low high : byte) (rest : list byte) :
  m_control_remaining d <> 0%Z ->
  Z.land (m_control_bits d) 1 <> 0%Z ->
  ahead (m_stream d) = low :: high :: rest ->
  window_ok d ->
  dst < length buffer ->
  let tmp := le_decode [low; high] in
  let last := (backref_base d (backref_ofs tmp) + backref_len tmp - 1)%Z in
  ((last < window_size)%Z ->
   exists value,
     m_window d !! Z.to_nat last = Some value
     /\ lzrw_token (S fuel) dst (d, buffer) =
          Some (Return tt,
                (with_stream d (advance (m_stream d) 2), <[dst := value]> buffer)))
  /\ ((window_size <= last)%Z ->
      exists buffer',
        lzrw_token (S fuel) dst (d, buffer) =
          Some (Undefined, (with_stream d (advance (m_stream d) 2), buffer'))).
Proof.
  intros Hnz Hbit Hahead [Hlen Hidx] Hdst tmp last.
  assert (Hrefill : refill_control (S fuel) d = Some (Return tt, d)).
  { unfold refill_control. rewrite (bind_return get _ d d d eq_refl).
    now destruct (Z.eqb_spec (m_control_remaining d) 0). }
  assert (Hread : read_uint16 (S fuel) (m_stream d)
                  = Some (Return tmp, advance (m_stream d) 2)).
  { unfold read_uint16.
    now rewrite (bind_return _ _ _ _ _
                   (read_value_ahead fuel (m_stream d) [low; high] rest Hahead
                      ltac:(cbn; lia))). }
  assert (Hrun : lzrw_token (S fuel) dst (d, buffer) =
                 backref_loop (backref_ofs tmp) 0 (Z.to_nat (backref_len tmp)) dst
                   (with_stream d (advance (m_stream d) 2), buffer)).
  { unfold lzrw_token.
    rewrite (bind_return _ _ _ _ _ (on_decoder_run _ _ _ buffer _ Hrefill)).
    rewrite (bind_return _ _ _ _ _ (on_decoder_run get d d buffer _ eq_refl)).
    destruct (Z.eqb_spec (Z.land (m_control_bits d) 1) 0) as [|_]; [contradiction|].
    cbn [negb].
    now rewrite (bind_return _ _ _ _ _
                   (on_decoder_run _ _ _ buffer _
                      (on_stream_return _ d _ _ Hread))). }
  pose proof (backref_len_range tmp) as Hrange.
  set (d2 := with_stream d (advance (m_stream d) 2)) in *.
  assert (Hbase : backref_base d2 (backref_ofs tmp) = backref_base d (backref_ofs tmp))
    by reflexivity.
  split; intros Hlast.
  - destruct (backref_loop_inside (backref_ofs tmp) dst
                (Z.to_nat (backref_len tmp) - 1) 0%Z d2 buffer Hlen Hdst)
      as (value & Hvalue & Hloop); [lia|rewrite Hbase; unfold last in Hlast; lia|].
    exists value. split.
    + change (m_window d2) with (m_window d) in Hvalue. rewrite <- Hvalue, Hbase.
      f_equal. unfold last. lia.
    + rewrite Hrun, <- Hloop. f_equal. lia.
  - rewrite Hrun.
    apply backref_loop_outside; [exact Hlen|exact Hdst|lia| |].
    + pose proof (backref_base_range d2 (backref_ofs tmp)). lia.
    + rewrite Hbase. unfold last in Hlast. lia.
Qed.

End DecoderFacts.

(** ** The further theorems on concrete inputs *)

Lemma istream_read_ifstream_short_witness :
  istream_read 2 1 3 ({| fd_bytes := [x41; x42]; fd_offset := 1 |}, replicate 4 x00) =
    Some (Throw end_of_stream,
          ({| fd_bytes := [x41; x42]; fd_offset := 2 |}, [x00; x42; x00; x00])).
Proof.
  apply (istream_read_ifstream_short 0 (replicate 4 x00) 1 3
           {| fd_bytes := [x41; x42]; fd_offset := 1 |});
    cbn [fd_bytes fd_offset length replicate]; lia.
Defined.

Lemma istream_read_ifstream_split_witness :
  istream_read 1 0 3 (opened [x41; x42; x43], replicate 3 x00) =
    (let* _ := istream_read 1 0 1 in istream_read 1 1 2)
      (opened [x41; x42; x43], replicate 3 x00).
Proof.
  apply (istream_read_ifstream_split 0 (replicate 3 x00) 0 1 2
           (opened [x41; x42; x43]));
    cbn [opened fd_bytes fd_offset length replicate]; lia.
Defined.

Lemma extract_missing_file_witness :
  extract (P := zeroed) 3 "b.ris" (only "a.ris" one_plain_entry) =
    Some (Throw system_error,
          {| files := {[ "a.ris"%string := one_plain_entry ]};
             console := ["b.ris"%string] |}).
Proof.
  apply (extract_missing_file (P := zeroed) 3 "b.ris" (only "a.ris" one_plain_entry)).
  vm_compute. reflexivity.
Defined.

Lemma extract_unknown_version_witness :
  extract (P := zeroed) 3 "a.ris" (only "a.ris" [x07; x4c; x4d]) =
    Some (Throw (runtime_error "unknown version: 7"),
          {| files := {[ "a.ris"%string := [x07; x4c; x4d] ]};
             console := ["a.ris"%string] |}).
Proof.
  apply (extract_unknown_version (P := zeroed) 3 "a.ris" (only "a.ris" [x07; x4c; x4d])
           x07 [x4c; x4d]).
  - lia.
  - vm_compute. reflexivity.
  - vm_compute. discriminate.
Defined.

Lemma extract_truncated_header_witness :
  let archive := take 15 (header_bytes [17%Z]) in
  extract (P := zeroed) 2 "a.ris" (only "a.ris" archive) =
    Some (Throw end_of_stream,
          {| files := {[ "a.ris"%string := archive ]};
             console := ["a.ris"%string] |}).
Proof.
  intros archive.
  apply (extract_truncated_header (P := zeroed) 0 "a.ris" (only "a.ris" archive)
           [17%Z] 15).
  - vm_compute. reflexivity.
  - vm_compute. lia.
  - intros _. vm_compute. reflexivity.
Defined.

(** An archive of two plain entries, [DE AD] at offset 21 and [EF] at
    offset 28. *)
Definition two_plain_entries : list byte :=
  header_bytes [21%Z; 28%Z]
    ++ [x08] ++ [x02; x00; x00; x00] ++ [xde; xad]
    ++ [x08] ++ [x01; x00; x00; x00] ++ [xef].

Lemma extract_plain_archive_witness :
  exists h',
    extract (P := zeroed) 3 "a.ris" (only "a.ris" two_plain_entries)
      = Some (Return tt, h')
    /\ console h' = ["a.ris"%string]
    /\ files h' !! "a.0.bmp"%string = Some [xde; xad]
    /\ files h' !! "a.1.bmp"%string = Some [xef]
    /\ files h' !! "a.ris"%string = Some two_plain_entries.
Proof.
  destruct (extract_plain_archive (P := zeroed) 2 "a" "ris"
              (only "a.ris" two_plain_entries) [21%Z; 28%Z] [[xde; xad]; [xef]]
              ([x08] ++ [x02; x00; x00; x00] ++ [xde; xad]
                 ++ [x08] ++ [x01; x00; x00; x00] ++ [xef]))
    as (h' & Hrun & Hconsole & Hentries & Harchive & _).
  - reflexivity.
  - reflexivity.
  - vm_compute. reflexivity.
  - vm_compute. reflexivity.
  - vm_compute. split; [discriminate|reflexivity].
  - apply Forall_cons. split; [|apply Forall_cons; split; [|apply Forall_nil_2]];
      vm_compute; (split; [discriminate|reflexivity]).
  - constructor; [|constructor; [|constructor]].
    + split; [vm_compute; split; [discriminate|reflexivity]|].
      exists ([x08] ++ [x01; x00; x00; x00] ++ [xef]). vm_compute. reflexivity.
    + split; [vm_compute; split; [discriminate|reflexivity]|].
      exists []. vm_compute. reflexivity.
  - intros [|[|j]] Hj; [reflexivity|reflexivity|cbn [length] in Hj; lia].
  - apply Forall_cons. split; [|apply Forall_cons; split; [|apply Forall_nil_2]];
      cbn [length]; lia.
  - exists h'. split; [exact Hrun|]. split; [exact Hconsole|].
    split; [exact (Hentries 0 [xde; xad] eq_refl)|].
    split; [exact (Hentries 1 [xef] eq_refl)|exact Harchive].
Defined.

Lemma export_bitmap_ifstream_short_witness :
  let s := opened (replicate 4100 x41) in
  export_bitmap (P := zeroed) 4502 s "a.0.bmp" 4500 (only "a.ris" []) =
    Some (Throw end_of_stream,
          {| files := <["a.0.bmp"%string :=
                          upcoming s (buffer_size * (available s / buffer_size))]>
                        {[ "a.ris"%string := [] ]};
             console := [] |})
  /\ upcoming s (buffer_size * (available s / buffer_size)) = replicate 4096 x41.
Proof.
  intros s. split.
  - apply (export_bitmap_ifstream_short (P := zeroed) 4502 s "a.0.bmp" 4500
             (only "a.ris" [])).
    + apply Nat.ltb_lt. vm_compute. reflexivity.
    + reflexivity.
    + apply Nat.leb_le. vm_compute. reflexivity.
  - vm_compute. reflexivity.
Defined.

Lemma extract_entry_compressed_witness :
  exists o,
    extract_entry (P := zeroed) 10 (opened one_compressed_entry) "a.ris" 0 17
      (only "a.ris" one_compressed_entry) =
      Some (o, {| files := <["a.0.bmp"%string := []]>
                             {[ "a.ris"%string := one_compressed_entry ]};
                  console := [] |})
    /\ match o with
       | Return stream' =>
           5%Z = 0%Z
           /\ stream' = {| fd_bytes := one_compressed_entry; fd_offset := 27 |}
       | Throw e => (0 < 5)%Z /\ e = end_of_stream
       | Undefined => (0 < 5)%Z
       end.
Proof.
  apply (extract_entry_compressed (P := zeroed) 10 (opened one_compressed_entry)
           "a.ris" 0 17 (only "a.ris" one_compressed_entry) 5 5 x00
           [x02; x00; x41; x01; x03]).
  - vm_compute. reflexivity.
  - vm_compute. split; [discriminate|reflexivity].
  - vm_compute. split; [discriminate|reflexivity].
  - reflexivity.
  - cbn [length]. lia.
Defined.

Lemma ilzrwstream_try_read_window_ok_witness :
  let d := wrap (P := zeroed) (opened [x00; x00; x41]) in
  let d' := {| m_stream := {| fd_bytes := [x00; x00; x41]; fd_offset := 3 |};
               m_window := <[0 := x41]> (m_window d);
               m_window_index := 1;
               m_control_bits := 0;
               m_control_remaining := 16 |} in
  window_ok d
  /\ ilzrwstream_try_read (P := zeroed) 6 0 1 (d, [x00])
     = Some (Throw end_of_stream, (d', [x41]))
  /\ window_ok d'.
Proof.
  intros d d'.
  assert (Hok : window_ok d) by apply wrap_window_ok.
  assert (Hrun : ilzrwstream_try_read (P := zeroed) 6 0 1 (d, [x00])
                 = Some (Throw end_of_stream, (d', [x41])))
    by (vm_compute; reflexivity).
  split; [exact Hok|]. split; [exact Hrun|].
  exact (ilzrwstream_try_read_window_ok (P := zeroed) 6 0 1 d d' [x00] [x41]
           (Throw end_of_stream) Hok Hrun).
Defined.

Lemma lzrw_token_literal_witness :
  lzrw_token (P := zeroed) 1 0 (after_one_literal, [x41; x00]) =
    Some (Return tt,
          ({| m_stream := {| fd_bytes := [x02; x00; x41; x01; x03]; fd_offset := 4 |};
              m_window := <[1 := x01]> (m_window after_one_literal);
              m_window_index := 2;
              m_control_bits := 2;
              m_control_remaining := 16 |},
           [x01; x00])).
Proof.
  apply (lzrw_token_literal (P := zeroed) 0 0 after_one_literal [x41; x00] x01 [x03]).
  - discriminate.
  - reflexivity.
  - reflexivity.
  - cbn [length]. lia.
Defined.

(** A decoder after the literals [41] and [42], about to take the
    descriptor [02 01]: distance 2, length 2. *)
Definition after_two_literals : ilzrwstream_impl ifstream_impl :=
  {| m_stream := {| fd_bytes := [x41; x42; x02; x01]; fd_offset := 2 |};
     m_window := <[1 := x42]> (<[0 := x41]> (replicate 4096 x00));
     m_window_index := 2;
     m_control_bits := 1;
     m_control_remaining := 14 |}.

(** A decoder just made, about to take the descriptor [01 01]: distance 1,
    length 2, from the last place of the window. *)
Definition before_far_backref : ilzrwstream_impl ifstream_impl :=
  {| m_stream := {| fd_bytes := [x01; x01]; fd_offset := 0 |};
     m_window := replicate 4096 x00;
     m_window_index := 0;
     m_control_bits := 1;
     m_control_remaining := 16 |}.

Lemma lzrw_token_backref_witness :
  lzrw_token (P := zeroed) 1 0 (after_two_literals, [xcc; xcc]) =
    Some (Return tt,
          (with_stream after_two_literals
             {| fd_bytes := [x41; x42; x02; x01]; fd_offset := 4 |},
           [x42; xcc]))
  /\ exists buffer',
       lzrw_token (P := zeroed) 1 0 (before_far_backref, [xcc; xcc]) =
         Some (Undefined,
               (with_stream before_far_backref
                  {| fd_bytes := [x01; x01]; fd_offset := 2 |},
                buffer')).
Proof.
  split.
  - destruct (lzrw_token_backref (P := zeroed) 0 0 after_two_literals [xcc; xcc]
                x02 x01 []) as [Hinside _].
    + discriminate.
    + discriminate.
    + reflexivity.
    + split; [reflexivity|vm_compute; split; [discriminate|reflexivity]].
    + cbn [length]. lia.
    + destruct Hinside as (value & Hvalue & Hrun); [vm_compute; reflexivity|].
      vm_compute in Hvalue. injection Hvalue as <-. exact Hrun.
  - destruct (lzrw_token_backref (P := zeroed) 0 0 before_far_backref [xcc; xcc]
                x01 x01 []) as [_ Houtside].
    + discriminate.
    + discriminate.
    + reflexivity.
    + split; [reflexivity|vm_compute; split; [discriminate|reflexivity]].
    + cbn [length]. lia.
    + apply Houtside. vm_compute. discriminate.
Defined.

Lemma extract_entry_past_end_witness :
  extract_entry (P := zeroed) 2 (opened one_plain_entry) "a.ris" 0 100
    (only "a.ris" one_plain_entry) =
    Some (Throw end_of_stream, only "a.ris" one_plain_entry).
Proof.
  apply (extract_entry_past_end (P := zeroed) 0 (opened one_plain_entry) "a.ris" 0 100
           (only "a.ris" one_plain_entry)).
  vm_compute. lia.
Defined.

Lemma extract_entry_plain_no_dot_witness :
  extract_entry (P := zeroed) 1 (opened one_plain_entry) "archive" 0 17
    (only "archive" one_plain_entry) =
    Some (Throw system_error, only "archive" one_plain_entry).
Proof.
  apply (extract_entry_plain_no_dot (P := zeroed) 0 (opened one_plain_entry) "archive"
           0 17 (only "archive" one_plain_entry) [xde; xad; xbe; xef]).
  - reflexivity.
  - reflexivity.
  - split.
    + vm_compute. split; [discriminate|reflexivity].
    + exists [xff]. vm_compute. reflexivity.
Defined.

(** ** Two archives with an entry of type 255 *)

(** One entry, at offset 17, of type 255. *)
Definition unknown_first_entry : list byte :=
  header_bytes [17%Z] ++ [xff].

(** Two entries: a plain entry of the byte [41] at offset 21, and at
    offset 27 an entry of type 255. *)
Definition unknown_second_entry : list byte :=
  header_bytes [21%Z; 27%Z]
    ++ ([x08] ++ [x01; x00; x00; x00] ++ [x41]) ++ [xff].

(** C9, the counterexample.  [extract] on the first archive fails at entry
    0, offset 17; on the second it writes entry 0 and fails at entry 1,
    offset 27.  Both runs throw the same exception, ["unknown type: 255"]:
    neither the index nor the offset of the failing entry can be read off
    it. *)
Lemma unknown_type_error_hides_entry :
  extract (P := zeroed) 3 "a.ris" (only "a.ris" unknown_first_entry) =
    Some (Throw (runtime_error "unknown type: 255"),
          {| files := {[ "a.ris"%string := unknown_first_entry ]};
             console := ["a.ris"%string] |})
  /\ extract (P := zeroed) 3 "a.ris" (only "a.ris" unknown_second_entry) =
       Some (Throw (runtime_error "unknown type: 255"),
             {| files := <["a.0.bmp"%string := [x41]]>
                           {[ "a.ris"%string := unknown_second_entry ]};
                console := ["a.ris"%string] |})
  /\ ~ @unknown_type_error_names_entry zeroed.
Proof.
  assert (Hfirst :
    extract (P := zeroed) 3 "a.ris" (only "a.ris" unknown_first_entry) =
      Some (Throw (runtime_error "unknown type: 255"),
            {| files := {[ "a.ris"%string := unknown_first_entry ]};
               console := ["a.ris"%string] |})) by (vm_compute; reflexivity).
  assert (Hsecond :
    extract (P := zeroed) 3 "a.ris" (only "a.ris" unknown_second_entry) =
      Some (Throw (runtime_error "unknown type: 255"),
            {| files := <["a.0.bmp"%string := [x41]]>
                          {[ "a.ris"%string := unknown_second_entry ]};
               console := ["a.ris"%string] |})) by (vm_compute; reflexivity).
  split; [exact Hfirst|]. split; [exact Hsecond|].
  intros [entry_of Hnames].
  assert (Hu32 : forall value, (0 <= value < 256)%Z -> is_uint32 value).
  { intros value Hvalue. unfold is_uint32.
    change (2 ^ 32)%Z with 4294967296%Z. lia. }
  assert (H0 : entry_of (runtime_error "unknown type: 255") = 0
               \/ entry_of (runtime_error "unknown type: 255") = Z.to_nat 17).
  { apply (Hnames 3 "a.ris"%string (only "a.ris" unknown_first_entry)
             [17%Z] [xff] 0 17%Z
             {| fd_bytes := unknown_first_entry; fd_offset := 17 |}
             {| files := {[ "a.ris"%string := unknown_first_entry ]};
                console := ["a.ris"%string] |}
             xff _
             {| files := {[ "a.ris"%string := unknown_first_entry ]};
                console := ["a.ris"%string] |}).
    - vm_compute. reflexivity.
    - apply Hu32. cbn [length]. lia.
    - apply Forall_cons. split; [apply Hu32; lia|apply Forall_nil_2].
    - reflexivity.
    - vm_compute. reflexivity.
    - vm_compute. reflexivity.
    - discriminate.
    - discriminate.
    - exact Hfirst. }
  assert (H1 : entry_of (runtime_error "unknown type: 255") = 1
               \/ entry_of (runtime_error "unknown type: 255") = Z.to_nat 27).
  { apply (Hnames 3 "a.ris"%string (only "a.ris" unknown_second_entry)
             [21%Z; 27%Z] (([x08] ++ [x01; x00; x00; x00] ++ [x41]) ++ [xff])
             1 27%Z
             {| fd_bytes := unknown_second_entry; fd_offset := 27 |}
             {| files := <["a.0.bmp"%string := [x41]]>
                           {[ "a.ris"%string := unknown_second_entry ]};
                console := ["a.ris"%string] |}
             xff _
             {| files := <["a.0.bmp"%string := [x41]]>
                           {[ "a.ris"%string := unknown_second_entry ]};
                console := ["a.ris"%string] |}).
    - vm_compute. reflexivity.
    - apply Hu32. cbn [length]. lia.
    - apply Forall_cons. split; [apply Hu32; lia|].
      apply Forall_cons. split; [apply Hu32; lia|apply Forall_nil_2].
    - reflexivity.
    - vm_compute. reflexivity.
    - vm_compute. reflexivity.
    - discriminate.
    - discriminate.
    - exact Hsecond. }
  change (Z.to_nat 17) with 17 in H0. change (Z.to_nat 27) with 27 in H1.
  lia.
Qed.
